(** * Qwen3 no-think API gateway: the response-normalisation pipeline

    A shallow embedding of [app/services/vllm_service.py] (with the request
    schema of [app/models/openai_schemas.py] and the settings of
    [app/core/config.py]) and the properties of its field patcher, its SSE
    splitter, its response normaliser and its two request forwarders.

    Python values are modelled as follows.
    - [bytes] is a list of bytes; [str] is [string] (one character per code
      point; only code points below 256 occur here).
    - A decoded JSON document is a [json] tree.  A Python [dict] is an
      association list in insertion order whose keys are distinct
      ([Dict.wf]); assignment to an existing key keeps its position, as in
      Python.
    - A Python [float] is carried by its [repr]: the gateway never computes
      with one, it only passes them on.
    - Code that can raise returns [exc A]; [try ... except Exception] is a
      match on that result.
    - [json.loads] and [json.dumps] belong to the Python library, not to the
      gateway: the gateway is parameterised by a [PyLib].  [PyJson] is a
      codec for the float-free, escape-light fragment of JSON that the
      worked examples use. *)

From Stdlib Require Import List String Ascii ZArith Bool Arith Lia.
From Stdlib.Strings Require Import Byte.
From Stdlib Require Import DecimalString.
Import ListNotations.

Local Open Scope string_scope.
Local Open Scope list_scope.

Set Implicit Arguments.
Set Warnings "-register-all".

(* ===================================================================== *)
(** * Byte strings *)
(* ===================================================================== *)

Definition bytes := list byte.

Module Bytes.

Fixpoint eqb (a b : bytes) : bool :=
  match a, b with
  | [], [] => true
  | x :: a', y :: b' => Byte.eqb x y && eqb a' b'
  | _, _ => false
  end.

(** [s.startswith(p)] *)
Fixpoint startswith (p s : bytes) : bool :=
  match p, s with
  | [], _ => true
  | x :: p', y :: s' => Byte.eqb x y && startswith p' s'
  | _ :: _, [] => false
  end.

(** [s.find(sep)]: index of the first occurrence. *)
Fixpoint find (sep s : bytes) : option nat :=
  if startswith sep s then Some 0
  else match s with
       | [] => None
       | _ :: s' => option_map S (find sep s')
       end.

(** [s.split(sep)] for a non-empty [sep]: cut at the occurrences of [sep],
    found from left to right without overlap.  Every cut consumes at
    least one byte, so [length s] rounds are enough. *)
Fixpoint split_fuel (n : nat) (sep s : bytes) : list bytes :=
  match n with
  | 0 => [s]
  | S n' =>
      match find sep s with
      | None => [s]
      | Some i => firstn i s :: split_fuel n' sep (skipn (i + List.length sep) s)
      end
  end.

Definition split (sep s : bytes) : list bytes := split_fuel (List.length s) sep s.

(** [sep.join(parts)] *)
Fixpoint join (sep : bytes) (parts : list bytes) : bytes :=
  match parts with
  | [] => []
  | [p] => p
  | p :: rest => p ++ sep ++ join sep rest
  end.

(** ASCII white space, as [bytes.strip()] understands it. *)
Definition isspace (c : byte) : bool :=
  match c with
  | x20 | x09 | x0a | x0d | x0b | x0c => true
  | _ => false
  end.

Fixpoint lstrip (s : bytes) : bytes :=
  match s with
  | c :: s' => if isspace c then lstrip s' else s
  | [] => []
  end.

Definition rstrip (s : bytes) : bytes := rev (lstrip (rev s)).

Definition strip (s : bytes) : bytes := rstrip (lstrip s).

(** [s in t] for byte strings: [s] occurs in [t]. *)
Definition contains (s t : bytes) : bool :=
  match find s t with Some _ => true | None => false end.

(** Literals.  In the text of a literal an apostrophe stands for the
    double quote (byte 0x22) and a tilde for the line feed (byte 0x0a);
    every other character stands for itself. *)
Definition lit_byte (c : byte) : byte :=
  match c with
  | x27 => x22
  | x7e => x0a
  | _ => c
  end.

Definition lit (s : string) : bytes := map lit_byte (list_byte_of_string s).

End Bytes.

(** ** Python [str] helpers *)

Module Str.

Definition of_bytes (s : bytes) : string := string_of_list_byte s.
Definition to_bytes (s : string) : bytes := list_byte_of_string s.

(** [needle in hay] *)
Definition contains (needle hay : string) : bool :=
  Bytes.contains (to_bytes needle) (to_bytes hay).

Definition lower_ascii (c : ascii) : ascii :=
  let n := nat_of_ascii c in
  if Nat.leb 65 n && Nat.leb n 90 then ascii_of_nat (n + 32) else c.

(** [s.lower()].  Only the letters A-Z are mapped: the gateway compares
    the result with ASCII constants only, and no character outside ASCII
    lower-cases to an ASCII one in the Latin-1 range of a header. *)
Fixpoint lower (s : string) : string :=
  match s with
  | EmptyString => EmptyString
  | String c s' => String (lower_ascii c) (lower s')
  end.

(** Literal with the conventions of [Bytes.lit]. *)
Definition lit (s : string) : string := of_bytes (Bytes.lit s).

End Str.

(* ===================================================================== *)
(** * Python dictionaries *)
(* ===================================================================== *)

Module Dict.

Definition t (V : Type) := list (string * V).

Section Ops.
Variable V : Type.

(** [d.get(k)] *)
Fixpoint get (k : string) (d : t V) : option V :=
  match d with
  | [] => None
  | (k', v) :: d' => if String.eqb k' k then Some v else get k d'
  end.

(** [d.get(k, dflt)] *)
Definition get_default (k : string) (dflt : V) (d : t V) : V :=
  match get k d with Some v => v | None => dflt end.

(** [k in d] *)
Definition mem (k : string) (d : t V) : bool :=
  match get k d with Some _ => true | None => false end.

(** [d[k] = v]: an existing key keeps its place, a new one goes last. *)
Fixpoint set (k : string) (v : V) (d : t V) : t V :=
  match d with
  | [] => [(k, v)]
  | (k', v') :: d' =>
      if String.eqb k' k then (k, v) :: d' else (k', v') :: set k v d'
  end.

(** [del d[k]] / [d.pop(k)] on a dictionary that has the key. *)
Definition del (k : string) (d : t V) : t V :=
  filter (fun kv => negb (String.eqb (fst kv) k)) d.

(** [d.setdefault(k, v)] *)
Definition setdefault (k : string) (v : V) (d : t V) : t V :=
  if mem k d then d else set k v d.

(** [{k: v for k, v in items}] and [dict(items)]: a later item with the
    same key overwrites the value of the earlier one. *)
Definition of_items (items : list (string * V)) : t V :=
  fold_left (fun d kv => set (fst kv) (snd kv) d) items [].

Definition keys (d : t V) : list string := map fst d.

(** The keys of a Python dictionary are distinct. *)
Definition wf (d : t V) : Prop := NoDup (keys d).

End Ops.

End Dict.

(* ===================================================================== *)
(** * JSON values *)
(* ===================================================================== *)

(** What [json.loads] returns. *)
Inductive json : Type :=
| JNull
| JBool (b : bool)
| JInt (z : Z)
| JFloat (repr : string)
| JStr (s : string)
| JArr (items : list json)
| JObj (fields : list (string * json)).

Definition jdict := Dict.t json.

(** [v in (None, '')]: [v] is [None] or the empty string. *)
Definition in_none_or_empty (v : json) : bool :=
  match v with
  | JNull => true
  | JStr EmptyString => true
  | _ => false
  end.

(** [bool(v)] *)
Definition truthy (v : json) : bool :=
  match v with
  | JNull => false
  | JBool b => b
  | JInt z => negb (Z.eqb z 0)
  | JFloat r => negb (String.eqb r "0.0" || String.eqb r "-0.0")
  | JStr s => negb (String.eqb s EmptyString)
  | JArr l => match l with [] => false | _ => true end
  | JObj d => match d with [] => false | _ => true end
  end.

(* ===================================================================== *)
(** * Exceptions *)
(* ===================================================================== *)

Inductive pyexc : Type :=
| AttributeError
| IndexError
| KeyError
| TypeError
| ValueError.

Inductive exc (A : Type) : Type :=
| Ok (a : A)
| Raise (e : pyexc).

Arguments Ok {A} a.
Arguments Raise {A} e.

Definition bind {A B : Type} (c : exc A) (k : A -> exc B) : exc B :=
  match c with
  | Ok a => k a
  | Raise e => Raise e
  end.

Notation "x <- c ;; k" := (bind c (fun x => k))
  (at level 61, c at next level, right associativity).

Fixpoint mapM {A B : Type} (f : A -> exc B) (l : list A) : exc (list B) :=
  match l with
  | [] => Ok []
  | a :: l' => b <- f a ;; bs <- mapM f l' ;; Ok (b :: bs)
  end.

(** The library functions the gateway calls on data: [json.loads],
    [json.dumps(...).encode()] and [bytes.decode(errors="ignore")].
    [loads] returns [None] where Python raises (a [ValueError]: a
    [JSONDecodeError] or a [UnicodeDecodeError]). *)
Class PyLib : Type := {
  loads : bytes -> option json;
  dumps : json -> bytes;
  decode_ignore : bytes -> string
}.

(* ===================================================================== *)
(** * The gateway *)
(* ===================================================================== *)

(** ** Field patcher *)

(** [_patch_reasoning_in_message(msg)]: the dictionary after the call.
<<
    if msg.get("reasoning_content") is None: return
    if msg.get("content") in (None, ''): msg["content"] = msg["reasoning_content"]
    del msg["reasoning_content"]
>> *)
Definition _patch_reasoning_in_message (msg : jdict) : jdict :=
  match Dict.get "reasoning_content" msg with
  | None | Some JNull => msg
  | Some rc =>
      let msg1 :=
        match Dict.get "content" msg with
        | None => Dict.set "content" rc msg
        | Some c => if in_none_or_empty c then Dict.set "content" rc msg else msg
        end in
      Dict.del "reasoning_content" msg1
  end.

(** [_patch_reasoning_in_json_bytes] and [_stream_patch] work on whatever
    [json.loads] returned, so every attribute access and subscript below
    is checked the way Python checks it at run time. *)

(** [v.get(k, dflt)]: only a dictionary has [get]. *)
Definition py_get (v : json) (k : string) (dflt : json) : exc json :=
  match v with
  | JObj d => Ok (Dict.get_default k dflt d)
  | _ => Raise AttributeError
  end.

(** [v[0]] *)
Definition subscript0 (v : json) : exc json :=
  match v with
  | JArr (x :: _) => Ok x
  | JArr [] => Raise IndexError
  | JStr (String c _) => Ok (JStr (String c EmptyString))
  | JStr EmptyString => Raise IndexError
  | JObj _ => Raise KeyError
  | JNull | JBool _ | JInt _ | JFloat _ => Raise TypeError
  end.

(** [for x in v]: the values the loop variable takes. *)
Definition py_iter (v : json) : exc (list json) :=
  match v with
  | JArr l => Ok l
  | JStr s => Ok (map (fun c => JStr (String c EmptyString)) (list_ascii_of_string s))
  | JObj d => Ok (map (fun kv => JStr (fst kv)) d)
  | JNull | JBool _ | JInt _ | JFloat _ => Raise TypeError
  end.

(** ["reasoning_content" == x] for an element [x] of a list. *)
Definition is_str (k : string) (x : json) : bool :=
  match x with
  | JStr s => String.eqb s k
  | _ => false
  end.

Section Gateway.
Context {py : PyLib}.

(** ** Non-streaming bodies *)

(** One round of [for choice in ...: _patch_reasoning_in_message(choice.get("message", {}))].
    The message is patched in place, so the choice holds the patched
    message afterwards; the default [{}] belongs to nobody. *)
Definition patch_choice (choice : json) : exc json :=
  match choice with
  | JObj c =>
      match Dict.get "message" c with
      | None => Ok choice
      | Some (JObj m) =>
          Ok (JObj (Dict.set "message" (JObj (_patch_reasoning_in_message m)) c))
      | Some _ => Raise AttributeError
      end
  | _ => Raise AttributeError
  end.

(** The body of the [try] of [_patch_reasoning_in_json_bytes], after
    [json.loads]: [data] once the loop is over. *)
Definition patch_data (data : json) : exc json :=
  match data with
  | JObj d =>
      match Dict.get "choices" d with
      | None => Ok data
      | Some (JArr l) =>
          l' <- mapM patch_choice l ;;
          Ok (JObj (Dict.set "choices" (JArr l') d))
      | Some v =>
          l <- py_iter v ;;
          _ <- mapM patch_choice l ;;
          Ok data
      end
  | _ => Raise AttributeError
  end.

Definition _patch_reasoning_in_json_bytes (body : bytes) : bytes :=
  match loads body with
  | None => body
  | Some data =>
      match patch_data data with
      | Ok data' => dumps data'
      | Raise _ => body
      end
  end.

(** ** SSE frames *)

Definition DELIM : bytes := [x0a; x0a].
Definition DATA : bytes := Bytes.lit "data:".
Definition DONE : bytes := Bytes.lit "[DONE]".

(** The [if "reasoning_content" in delta:] block; [in] is key membership
    on a dictionary, element membership on a list and substring search
    on a string. *)
Definition patch_delta (delta : json) : exc json :=
  match delta with
  | JObj d =>
      match Dict.get "reasoning_content" d with
      | None => Ok delta
      | Some rc =>
          let moved := JObj (Dict.set "content" rc (Dict.del "reasoning_content" d)) in
          match Dict.get "content" d with
          | None => Ok moved
          | Some c =>
              if in_none_or_empty c then Ok moved
              else Ok (JObj (Dict.del "reasoning_content" d))
          end
      end
  | JArr l =>
      if existsb (is_str "reasoning_content") l then
        if existsb (is_str "content") l then Raise AttributeError
        else Raise TypeError
      else Ok delta
  | JStr s =>
      if Str.contains "reasoning_content" s then Raise AttributeError
      else Ok delta
  | JNull | JBool _ | JInt _ | JFloat _ => Raise TypeError
  end.

(** [obj["choices"][0]["delta"] = delta] *)
Definition store_delta (obj delta : json) : exc json :=
  match obj with
  | JObj o =>
      match Dict.get "choices" o with
      | None => Raise KeyError
      | Some choices =>
          first <- subscript0 choices ;;
          match choices, first with
          | JArr (_ :: rest), JObj c =>
              Ok (JObj (Dict.set "choices"
                          (JArr (JObj (Dict.set "delta" delta c) :: rest)) o))
          | _, _ => Raise TypeError
          end
      end
  | _ => Raise TypeError
  end.

(** Lines 93-99 of [_stream_patch]: the decoded event after patching. *)
Definition patch_event_obj (obj : json) : exc json :=
  choices <- py_get obj "choices" (JArr [JObj []]) ;;
  first <- subscript0 choices ;;
  delta <- py_get first "delta" (JObj []) ;;
  delta' <- patch_delta delta ;;
  store_delta obj delta'.

(** One round of the [for event in chunk.split(b"\n\n")] loop: the bytes
    it yields, or the exception that leaves the loop. *)
Definition patch_event (event : bytes) : exc bytes :=
  if negb (Bytes.startswith DATA event) then Ok (event ++ DELIM)
  else
    let payload := Bytes.strip (skipn 5 event) in
    if Bytes.eqb payload DONE then Ok (event ++ DELIM)
    else
      match loads payload with
      | None => Ok (event ++ DELIM)
      | Some obj =>
          obj' <- patch_event_obj obj ;;
          Ok (Bytes.lit "data: " ++ dumps obj' ++ DELIM)
      end.

(** The loop over the events of one chunk, inside the outer [try]: what
    has been yielded stays yielded, and the first exception makes the
    handler yield the whole chunk and ends the chunk. *)
Fixpoint patch_events (chunk : bytes) (events : list bytes) : list bytes :=
  match events with
  | [] => []
  | event :: rest =>
      match patch_event event with
      | Ok out => out :: patch_events chunk rest
      | Raise _ => [chunk]
      end
  end.

Definition patch_chunk (chunk : bytes) : list bytes :=
  patch_events chunk (Bytes.split DELIM chunk).

(** [_stream_patch(gen)]: the chunks the generator yields, in order, for
    the chunks [gen] produces. *)
Definition _stream_patch (gen : list bytes) : list bytes :=
  flat_map patch_chunk gen.

End Gateway.

(** The frames of a byte stream: the non-empty spans that end with a
    delimiter.  Two delimiters in a row hold no frame between them, and
    what follows the last delimiter is not a frame yet. *)
Definition frames (stream : bytes) : list bytes :=
  filter (fun span => match span with [] => false | _ => true end)
         (removelast (Bytes.split DELIM stream)).

(* ===================================================================== *)
(** * HTTP: responses, requests, the backend *)
(* ===================================================================== *)

(** An [httpx.Response] of the backend whose body arrives in full:
    [resp_headers] is what [response.headers.items()] returns (lower-case
    names, one item per name), [resp_chunks] what [response.aiter_bytes()]
    delivers.  A body that breaks off on the way is an [Exchange], below. *)
Record Response : Type := {
  resp_status_code : Z;
  resp_headers : Dict.t string;
  resp_chunks : list bytes
}.

(** [await response.aread()] when the body arrives in full: its bytes. *)
Definition aread (r : Response) : bytes := List.concat (resp_chunks r).

(** The [StreamingResponse] handed to the caller; [sr_body] lists the
    chunks its body iterator yields. *)
Record StreamingResponse : Type := {
  sr_body : list bytes;
  sr_media_type : string;
  sr_status_code : Z;
  sr_headers : Dict.t string
}.

(** The exception classes of [httpx] that [build_request] and [send] raise,
    and [OtherException] for anything that is not an [httpx] class. *)
Inductive httpx_exc : Type :=
| ConnectTimeout | ReadTimeout | WriteTimeout | PoolTimeout
| ConnectError | ReadError | WriteError | CloseError
| LocalProtocolError | RemoteProtocolError
| ProxyError | UnsupportedProtocol
| DecodingError | TooManyRedirects
| InvalidURL | CookieConflict
| OtherException.

(** [isinstance(e, httpx.TimeoutException)] *)
Definition is_TimeoutException (e : httpx_exc) : bool :=
  match e with
  | ConnectTimeout | ReadTimeout | WriteTimeout | PoolTimeout => true
  | _ => false
  end.

(** [isinstance(e, httpx.RequestError)]; [TimeoutException] and
    [ConnectError] are subclasses of it. *)
Definition is_RequestError (e : httpx_exc) : bool :=
  match e with
  | InvalidURL | CookieConflict | OtherException => false
  | _ => true
  end.

(** What leaves a forwarder when it does not return. *)
Inductive error : Type :=
| HTTPException (status_code : Z) (detail : string)
| Uncaught (e : httpx_exc).

Inductive outcome (A : Type) : Type :=
| Returns (a : A)
| Raises (e : error).

Arguments Returns {A} a.
Arguments Raises {A} e.

(** The request given to [client.build_request] and [client.send]. *)
Record OutboundRequest : Type := {
  out_method : string;
  out_url : string;
  out_headers : option (Dict.t string);
  out_json : option jdict;
  out_content : option bytes;
  out_stream : bool
}.

(** The bytes of the body of an outbound request built from [content=]. *)
Definition out_body (r : OutboundRequest) : bytes :=
  match out_content r with Some b => b | None => [] end.

(** The backend seen from the client: a response, or the exception that
    [build_request] or [send] raises. *)
Definition Backend : Type := OutboundRequest -> httpx_exc + Response.

(** Calls on the network keep a log of the requests sent. *)
Definition net (A : Type) : Type :=
  list OutboundRequest -> outcome A * list OutboundRequest.

(** [req = client.build_request(...); resp = await client.send(req, ...)] *)
Definition send (backend : Backend) (req : OutboundRequest) : net Response :=
  fun log =>
    (match backend req with
     | inl e => Raises (Uncaught e)
     | inr resp => Returns resp
     end, log ++ [req]).

(** The two [except] clauses of both forwarders, in their order. *)
Definition backend_failure (e : httpx_exc) : error :=
  if is_TimeoutException e then
    HTTPException 504 "Gateway timeout: backend LLM did not respond in time."
  else if is_RequestError e then
    HTTPException 503 "Backend LLM service unreachable."
  else Uncaught e.

(** [try: ... send ... except ...: raise HTTPException(...)] followed by
    the rest of the forwarder. *)
Definition try_send {A : Type} (backend : Backend) (req : OutboundRequest)
    (k : Response -> outcome A) : net A :=
  fun log =>
    match send backend req log with
    | (Returns resp, log') => (k resp, log')
    | (Raises (Uncaught e), log') => (Raises (backend_failure e), log')
    | (Raises e, log') => (Raises e, log')
    end.

(** The settings of [app/core/config.py]. *)
Record Settings : Type := {
  LOG_LEVEL : string;
  VLLM_BASE_URL : string;
  VLLM_CHAT_COMPLETIONS_ENDPOINT : string;
  VLLM_REQUEST_TIMEOUT : Z;
  DEFAULT_TEMPERATURE : string;
  DEFAULT_TOP_P : string;
  DEFAULT_TOP_K : Z;
  DEFAULT_PRESENCE_PENALTY : string;
  DEFAULT_MIN_P : string
}.

(** The defaults written in the class. *)
Definition default_settings : Settings := {|
  LOG_LEVEL := "INFO";
  VLLM_BASE_URL := "http://localhost:10001";
  VLLM_CHAT_COMPLETIONS_ENDPOINT := "/v1/chat/completions";
  VLLM_REQUEST_TIMEOUT := 1200;
  DEFAULT_TEMPERATURE := "0.7";
  DEFAULT_TOP_P := "0.8";
  DEFAULT_TOP_K := 20;
  DEFAULT_PRESENCE_PENALTY := "1.5";
  DEFAULT_MIN_P := "0.0"
|}.

(** ** The request schema *)

Module Schemas.

Record Message : Type := {
  role : string;
  content : string
}.

(** A validated [ChatCompletionRequest].  An optional field is [None]
    when the caller did not send it and [Some v] when the caller sent
    [v] ([Some JNull] for an explicit [null]); [model_extra] holds the
    fields the schema does not declare ([extra = "allow"]). *)
Record ChatCompletionRequest : Type := {
  model : string;
  messages : list Message;
  temperature : option json;
  top_p : option json;
  top_k : option json;
  n : option json;
  stream : option json;
  stop : option json;
  max_tokens : option json;
  presence_penalty : option json;
  frequency_penalty : option json;
  logit_bias : option json;
  user : option json;
  model_extra : jdict
}.

Definition declared : list string :=
  ["model"; "messages"; "temperature"; "top_p"; "top_k"; "n"; "stream";
   "stop"; "max_tokens"; "presence_penalty"; "frequency_penalty";
   "logit_bias"; "user"].

(** Pydantic files a key under [model_extra] only when no field has
    that name, and the extra keys are distinct. *)
Definition valid (r : ChatCompletionRequest) : Prop :=
  Dict.wf (model_extra r) /\
  forall k, In k declared -> Dict.get k (model_extra r) = None.

Definition dump_message (m : Message) : json :=
  JObj [("role", JStr (role m)); ("content", JStr (content m))].

Definition item (k : string) (v : option json) : jdict :=
  match v with
  | Some x => [(k, x)]
  | None => []
  end.

(** [r.model_dump(exclude_unset=True)]: the fields the caller set, in
    the order of the class, then the extra ones. *)
Definition model_dump_exclude_unset (r : ChatCompletionRequest) : jdict :=
  [("model", JStr (model r));
   ("messages", JArr (map dump_message (messages r)))]
  ++ item "temperature" (temperature r)
  ++ item "top_p" (top_p r)
  ++ item "top_k" (top_k r)
  ++ item "n" (n r)
  ++ item "stream" (stream r)
  ++ item "stop" (stop r)
  ++ item "max_tokens" (max_tokens r)
  ++ item "presence_penalty" (presence_penalty r)
  ++ item "frequency_penalty" (frequency_penalty r)
  ++ item "logit_bias" (logit_bias r)
  ++ item "user" (user r)
  ++ model_extra r.

End Schemas.

(** An inbound [starlette] request of the generic route: [req_headers] is
    what [request.headers.items()] returns, one item per header line, in
    the order received, names in lower case. *)
Record Request : Type := {
  req_method : string;
  req_url_path : string;
  req_url_query : string;
  req_headers : list (string * string);
  req_body : bytes
}.

(** [request.headers.get(name, dflt)]: the value of the first line whose
    name is [name.lower()]. *)
Definition headers_get (name dflt : string) (items : list (string * string)) : string :=
  match List.find (fun kv => String.eqb (fst kv) (Str.lower name)) items with
  | Some kv => snd kv
  | None => dflt
  end.

(** [{k: v for k, v in items if k.lower() not in excluded}] *)
Definition not_excluded (excluded : list string) (kv : string * string) : bool :=
  negb (existsb (String.eqb (Str.lower (fst kv))) excluded).

Definition filter_headers (excluded : list string) (items : list (string * string))
  : Dict.t string :=
  Dict.of_items (filter (not_excluded excluded) items).

Section Forwarders.
Context {py : PyLib}.
Variable settings : Settings.

(** ** Response normaliser *)

Definition response_excluded : list string :=
  ["content-length"; "transfer-encoding"; "connection"; "content-encoding"].

Definition _handle_backend_response (response : Response)
    (is_streaming_request : bool) : outcome StreamingResponse :=
  let safe_headers := filter_headers response_excluded (resp_headers response) in
  if is_streaming_request then
    if negb (Z.eqb (resp_status_code response) 200) then
      Raises (HTTPException (resp_status_code response)
                            (decode_ignore (aread response)))
    else
      Returns {| sr_body := _stream_patch (resp_chunks response);
                 sr_media_type :=
                   Dict.get_default "content-type" "text/event-stream"
                                    (resp_headers response);
                 sr_status_code := resp_status_code response;
                 sr_headers := safe_headers |}
  else
    let response_content := aread response in
    if Z.leb 400 (resp_status_code response) then
      Returns {| sr_body := [response_content];
                 sr_media_type :=
                   Dict.get_default "content-type" "application/json"
                                    (resp_headers response);
                 sr_status_code := resp_status_code response;
                 sr_headers := safe_headers |}
    else
      Returns {| sr_body := [_patch_reasoning_in_json_bytes response_content];
                 sr_media_type :=
                   Dict.get_default "content-type" "application/json"
                                    (resp_headers response);
                 sr_status_code := resp_status_code response;
                 sr_headers := safe_headers |}.

(** ** Chat path *)


(** Lines 180-187: the outbound payload. *)
Definition chat_payload (original_chat_request : Schemas.ChatCompletionRequest) : jdict :=
  let payload := Schemas.model_dump_exclude_unset original_chat_request in
  let payload := Dict.set "chat_template_kwargs"
                          (JObj [("enable_thinking", JBool false)]) payload in
  let payload := Dict.setdefault "temperature" (JFloat (DEFAULT_TEMPERATURE settings)) payload in
  let payload := Dict.setdefault "top_p" (JFloat (DEFAULT_TOP_P settings)) payload in
  let payload := Dict.setdefault "top_k" (JInt (DEFAULT_TOP_K settings)) payload in
  let payload := Dict.setdefault "presence_penalty"
                                 (JFloat (DEFAULT_PRESENCE_PENALTY settings)) payload in
  Dict.setdefault "model" (JStr (Schemas.model original_chat_request)) payload.

(** [bool(payload.get("stream"))] *)
Definition chat_is_stream (payload : jdict) : bool :=
  match Dict.get "stream" payload with
  | Some v => truthy v
  | None => false
  end.

Definition chat_outbound (original_chat_request : Schemas.ChatCompletionRequest)
  : OutboundRequest :=
  let payload := chat_payload original_chat_request in
  {| out_method := "POST";
     out_url := VLLM_BASE_URL settings ++ VLLM_CHAT_COMPLETIONS_ENDPOINT settings;
     out_headers := None;
     out_json := Some payload;
     out_content := None;
     out_stream := chat_is_stream payload |}%string.

Definition forward_chat_completion_request_to_vllm (backend : Backend)
    (original_chat_request : Schemas.ChatCompletionRequest) : net StreamingResponse :=
  let req := chat_outbound original_chat_request in
  try_send backend req
    (fun resp => _handle_backend_response resp (out_stream req)).

(** ** Generic path *)

Definition request_excluded : list string :=
  ["host"; "content-length"; "transfer-encoding"; "connection"].

Definition path_and_query (request : Request) : string :=
  (req_url_path request ++
   match req_url_query request with
   | EmptyString => EmptyString
   | q => "?" ++ q
   end)%string.

(** ["text/event-stream" in request.headers.get("accept", '').lower()] *)
Definition expect_stream (request : Request) : bool :=
  Str.contains "text/event-stream"
    (Str.lower (headers_get "accept" EmptyString (req_headers request))).

Definition generic_outbound (request : Request) : OutboundRequest :=
  {| out_method := req_method request;
     out_url := (VLLM_BASE_URL settings ++ path_and_query request)%string;
     out_headers := Some (filter_headers request_excluded (req_headers request));
     out_json := None;
     out_content := match req_body request with
                    | [] => None
                    | body => Some body
                    end;
     out_stream := true |}.

Definition forward_generic_request_to_vllm (backend : Backend)
    (request : Request) : net StreamingResponse :=
  try_send backend (generic_outbound request)
    (fun resp => _handle_backend_response resp (expect_stream request)).

End Forwarders.

(* ===================================================================== *)
(** * A codec for the worked examples *)
(* ===================================================================== *)

(** [PyJson.loads] and [PyJson.dumps] follow Python's [json] module, with
    its default options, on the documents made of objects, arrays,
    strings of ASCII characters without [\u] escapes, integers, [true],
    [false] and [null].  [loads] rejects every other input, among them
    some that Python accepts (floats, [\u] escapes, text outside ASCII);
    the general theorems do not use this codec. *)
Module PyJson.

(** *** [json.dumps] *)

Definition hex_digit (k : nat) : byte :=
  match Byte.of_nat (if Nat.ltb k 10 then 48 + k else 87 + k) with
  | Some c => c
  | None => x30
  end.

(** [ensure_ascii=True]: everything outside [' '..'~'] is escaped. *)
Definition escape_char (c : byte) : bytes :=
  match c with
  | x22 => [x5c; x22]
  | x5c => [x5c; x5c]
  | x0a => [x5c; x6e]
  | x0d => [x5c; x72]
  | x09 => [x5c; x74]
  | x08 => [x5c; x62]
  | x0c => [x5c; x66]
  | _ =>
      let k := Byte.to_nat c in
      if Nat.leb 32 k && Nat.leb k 126 then [c]
      else [x5c; x75; x30; x30; hex_digit (k / 16); hex_digit (k mod 16)]
  end.

Definition dump_str (s : string) : bytes :=
  x22 :: flat_map escape_char (Str.to_bytes s) ++ [x22].

Definition dump_int (z : Z) : bytes :=
  Str.to_bytes (NilZero.string_of_int (Z.to_int z)).

Fixpoint dump (v : json) : bytes :=
  match v with
  | JNull => Bytes.lit "null"
  | JBool true => Bytes.lit "true"
  | JBool false => Bytes.lit "false"
  | JInt z => dump_int z
  | JFloat r => Str.to_bytes r
  | JStr s => dump_str s
  | JArr l =>
      let fix items (l : list json) : bytes :=
        match l with
        | [] => []
        | x :: l' =>
            match l' with
            | [] => dump x
            | _ => dump x ++ Bytes.lit ", " ++ items l'
            end
        end in
      Bytes.lit "[" ++ items l ++ Bytes.lit "]"
  | JObj d =>
      let fix fields (d : list (string * json)) : bytes :=
        match d with
        | [] => []
        | (k, x) :: d' =>
            match d' with
            | [] => dump_str k ++ Bytes.lit ": " ++ dump x
            | _ => dump_str k ++ Bytes.lit ": " ++ dump x ++ Bytes.lit ", " ++ fields d'
            end
        end in
      Bytes.lit "{" ++ fields d ++ Bytes.lit "}"
  end.

(** *** [json.loads] *)

Definition is_ws (c : byte) : bool :=
  match c with
  | x20 | x09 | x0a | x0d => true
  | _ => false
  end.

Fixpoint skip_ws (s : bytes) : bytes :=
  match s with
  | c :: s' => if is_ws c then skip_ws s' else s
  | [] => []
  end.

Definition digit (c : byte) : option Z :=
  let k := Byte.to_nat c in
  if Nat.leb 48 k && Nat.leb k 57 then Some (Z.of_nat (k - 48)) else None.

Fixpoint digits (acc : Z) (s : bytes) : Z * bytes :=
  match s with
  | c :: s' =>
      match digit c with
      | Some d => digits (10 * acc + d) s'
      | None => (acc, s)
      end
  | [] => (acc, [])
  end.

(** An integer: an optional minus sign, then either a single zero or a
    non-zero digit followed by digits.  A fraction or an exponent makes
    the number a float, which this codec does not read. *)
Definition number (s : bytes) : option (json * bytes) :=
  let '(neg, s1) := match s with
                    | x2d :: r => (true, r)
                    | _ => (false, s)
                    end in
  match s1 with
  | [] => None
  | c :: r =>
      match digit c with
      | None => None
      | Some d =>
          let '(v, rest) := if Z.eqb d 0 then (0%Z, r) else digits d r in
          match rest with
          | x2e :: _ | x65 :: _ | x45 :: _ => None
          | _ => Some (JInt (if neg then (- v)%Z else v), rest)
          end
      end
  end.

Definition unescape (c : byte) : option byte :=
  match c with
  | x22 => Some x22
  | x5c => Some x5c
  | x2f => Some x2f
  | x62 => Some x08
  | x66 => Some x0c
  | x6e => Some x0a
  | x72 => Some x0d
  | x74 => Some x09
  | _ => None
  end.

(** The rest of a string literal, after its opening quote. *)
Fixpoint string_body (acc : bytes) (s : bytes) : option (string * bytes) :=
  match s with
  | [] => None
  | x22 :: r => Some (Str.of_bytes (rev acc), r)
  | x5c :: r =>
      match r with
      | [] => None
      | e :: r' =>
          match unescape e with
          | Some c => string_body (c :: acc) r'
          | None => None
          end
      end
  | c :: r =>
      if Nat.ltb (Byte.to_nat c) 32 || Nat.ltb 127 (Byte.to_nat c) then None
      else string_body (c :: acc) r
  end.

Fixpoint value (fuel : nat) (s : bytes) : option (json * bytes) :=
  match fuel with
  | 0 => None
  | S f =>
      match s with
      | x22 :: r =>
          match string_body [] r with
          | Some (str, r') => Some (JStr str, r')
          | None => None
          end
      | x5b :: r =>
          match skip_ws r with
          | x5d :: r' => Some (JArr [], r')
          | r' =>
              match elements f r' with
              | Some (l, r'') => Some (JArr l, r'')
              | None => None
              end
          end
      | x7b :: r =>
          match skip_ws r with
          | x7d :: r' => Some (JObj [], r')
          | r' =>
              match members f r' with
              | Some (d, r'') => Some (JObj (Dict.of_items d), r'')
              | None => None
              end
          end
      | x6e :: x75 :: x6c :: x6c :: r => Some (JNull, r)
      | x74 :: x72 :: x75 :: x65 :: r => Some (JBool true, r)
      | x66 :: x61 :: x6c :: x73 :: x65 :: r => Some (JBool false, r)
      | _ => number s
      end
  end

(** The elements of an array, from the first byte of an element on. *)
with elements (fuel : nat) (s : bytes) : option (list json * bytes) :=
  match fuel with
  | 0 => None
  | S f =>
      match value f s with
      | None => None
      | Some (v, r) =>
          match skip_ws r with
          | x2c :: r' =>
              match elements f (skip_ws r') with
              | Some (vs, r'') => Some (v :: vs, r'')
              | None => None
              end
          | x5d :: r' => Some ([v], r')
          | _ => None
          end
      end
  end

(** The members of an object, from the opening quote of a key on. *)
with members (fuel : nat) (s : bytes) : option (list (string * json) * bytes) :=
  match fuel with
  | 0 => None
  | S f =>
      match s with
      | x22 :: r =>
          match string_body [] r with
          | None => None
          | Some (k, r1) =>
              match skip_ws r1 with
              | x3a :: r2 =>
                  match value f (skip_ws r2) with
                  | None => None
                  | Some (v, r3) =>
                      match skip_ws r3 with
                      | x2c :: r4 =>
                          match members f (skip_ws r4) with
                          | Some (d, r5) => Some ((k, v) :: d, r5)
                          | None => None
                          end
                      | x7d :: r4 => Some ([(k, v)], r4)
                      | _ => None
                      end
                  end
              | _ => None
              end
          end
      | _ => None
      end
  end.

Definition loads (s : bytes) : option json :=
  match value (2 * List.length s + 2) (skip_ws s) with
  | Some (v, r) =>
      match skip_ws r with
      | [] => Some v
      | _ => None
      end
  | None => None
  end.

(** [decode(errors="ignore")] of ASCII text; a byte outside ASCII is
    dropped. *)
Definition decode_ignore (s : bytes) : string :=
  Str.of_bytes (filter (fun c => Nat.ltb (Byte.to_nat c) 128) s).

Definition lib : PyLib :=
  Build_PyLib loads dump decode_ignore.

End PyJson.

(* ===================================================================== *)
(** * The shared HTTP client *)
(* ===================================================================== *)

(** An [httpx.AsyncClient].  Two clients are the same object when they
    have the same [client_id]: the number of clients constructed before
    this one. *)
Record AsyncClient : Type := {
  client_id : nat;
  client_timeout : Z;
  client_connect_timeout : Z;
  client_max_connections : Z;
  client_max_keepalive_connections : Z
}.

(** The module-level state of [vllm_service]: the global [_http_client],
    how many clients have been constructed, and the clients on which
    [aclose()] has been called, the last one first. *)
Record Process : Type := {
  _http_client : option AsyncClient;
  constructed : nat;
  aclosed : list nat
}.

(** The state when the module has just been imported. *)
Definition startup : Process :=
  {| _http_client := None; constructed := 0; aclosed := [] |}.

(** [get_http_client()]: the client returned and the state afterwards. *)
Definition get_http_client (settings : Settings) (w : Process) : AsyncClient * Process :=
  match _http_client w with
  | Some client => (client, w)
  | None =>
      let client := {| client_id := constructed w;
                       client_timeout := VLLM_REQUEST_TIMEOUT settings;
                       client_connect_timeout := 10;
                       client_max_connections := 100;
                       client_max_keepalive_connections := 20 |} in
      (client, {| _http_client := Some client;
                  constructed := S (constructed w);
                  aclosed := aclosed w |})
  end.

(** [close_http_client()] *)
Definition close_http_client (w : Process) : Process :=
  match _http_client w with
  | Some client =>
      {| _http_client := None;
         constructed := constructed w;
         aclosed := client_id client :: aclosed w |}
  | None => w
  end.

(** A run of the process: calls of the two functions one after the other. *)
Inductive client_call : Type :=
| Get
| Close.

(** The clients the [Get] calls of a run return, in order, and the state
    after the run. *)
Fixpoint run_calls (settings : Settings) (calls : list client_call) (w : Process)
  : list AsyncClient * Process :=
  match calls with
  | [] => ([], w)
  | Get :: calls' =>
      let '(client, w1) := get_http_client settings w in
      let '(clients, w2) := run_calls settings calls' w1 in
      (client :: clients, w2)
  | Close :: calls' => run_calls settings calls' (close_http_client w)
  end.

(* ===================================================================== *)
(** * Responses whose body breaks off *)
(* ===================================================================== *)

(** A [Response] above is a response whose body arrives in full, and
    [aread] gives the bytes of that body.  On the wire the backend can
    also break off after the headers; the read that reaches the break
    raises.  An [Exchange] is what the backend does for a request once it
    has sent the headers: [exch_response] holds the status, the headers
    and the chunks that arrive, [exch_break] the exception that reading
    raises after these chunks when the body breaks off. *)
Record Exchange : Type := {
  exch_response : Response;
  exch_break : option httpx_exc
}.

(** The backend as the client finds it on the wire. *)
Definition Wire : Type := OutboundRequest -> httpx_exc + Exchange.

(** [req = client.build_request(...); resp = await client.send(req, stream=...)].
    With [stream=False] the client reads the body before [send] returns,
    so a break is raised by [send] itself; with [stream=True] [send]
    returns when the headers are there. *)
Definition wire_send (wire : Wire) (req : OutboundRequest) : httpx_exc + Exchange :=
  match wire req with
  | inl e => inl e
  | inr x =>
      if out_stream req then inr x
      else match exch_break x with
           | Some e => inl e
           | None => inr x
           end
  end.

(** The body of [_handle_backend_response] is read at this call: always on
    the non-streaming branch (line 148), and on the streaming branch when
    the status is not 200 (line 123). *)
Definition reads_body (response : Response) (is_streaming_request : bool) : bool :=
  negb (is_streaming_request && Z.eqb (resp_status_code response) 200).

Section OnTheWire.
Context {py : PyLib}.
Variable settings : Settings.

(** [_handle_backend_response(resp, flag)] for a response that [send] has
    returned.  Where the function reads the body, [await response.aread()]
    raises the break; nothing catches it there.  On the streaming branch
    with status 200 the body is not read by the function: the response is
    returned, and its body holds the chunks that arrive. *)
Definition handle_exchange (x : Exchange) (is_streaming_request : bool)
  : outcome StreamingResponse :=
  match exch_break x with
  | Some e =>
      if reads_body (exch_response x) is_streaming_request
      then Raises (Uncaught e)
      else _handle_backend_response (exch_response x) is_streaming_request
  | None => _handle_backend_response (exch_response x) is_streaming_request
  end.

(** The [try] around [build_request] and [send] with its two [except]
    clauses, then the call of [_handle_backend_response], which is outside
    the [try]. *)
Definition send_and_handle (wire : Wire) (req : OutboundRequest)
    (is_streaming_request : bool) : net StreamingResponse :=
  fun log =>
    (match wire_send wire req with
     | inl e => Raises (backend_failure e)
     | inr x => handle_exchange x is_streaming_request
     end, log ++ [req]).

(** [forward_chat_completion_request_to_vllm] on the wire. *)
Definition chat_forwarder_on_wire (wire : Wire)
    (original_chat_request : Schemas.ChatCompletionRequest) : net StreamingResponse :=
  let req := chat_outbound settings original_chat_request in
  send_and_handle wire req (out_stream req).

(** [forward_generic_request_to_vllm] on the wire. *)
Definition generic_forwarder_on_wire (wire : Wire) (request : Request)
  : net StreamingResponse :=
  send_and_handle wire (generic_outbound settings request) (expect_stream request).

(** A wire seen as a [Backend]: the response of each exchange, taken as
    arriving in full. *)
Definition backend_of_wire (wire : Wire) : Backend :=
  fun req =>
    match wire req with
    | inl e => inl e
    | inr x => inr (exch_response x)
    end.

End OnTheWire.

(* ===================================================================== *)
(** * The routes of [app/main.py] *)
(* ===================================================================== *)

Section Routes.
Context {py : PyLib}.
Variable settings : Settings.

(** [str(e)] of an exception that is not an [HTTPException]. *)
Variable str_exc : httpx_exc -> string.

(** The [try] of both route functions:
<<
    try: return await forward(...)
    except HTTPException as e: raise e
    except Exception as e: raise HTTPException(status_code=500, detail=prefix + str(e))
>> *)
Definition reraise_as_500 {A : Type} (prefix : string) (call : net A) : net A :=
  fun log =>
    match call log with
    | (Raises (Uncaught e), log') =>
        (Raises (HTTPException 500 (prefix ++ str_exc e)%string), log')
    | result => result
    end.

Definition chat_completions_custom (wire : Wire)
    (request_body : Schemas.ChatCompletionRequest) : net StreamingResponse :=
  reraise_as_500 "Internal server error: "
    (chat_forwarder_on_wire settings wire request_body).

Definition generic_proxy (wire : Wire) (request : Request)
  : net StreamingResponse :=
  reraise_as_500 "Internal server error during generic proxy: "
    (generic_forwarder_on_wire settings wire request).

End Routes.

(* ===================================================================== *)
(** * Vocabulary of the statements *)
(* ===================================================================== *)

(** A choice the loop of [_patch_reasoning_in_json_bytes] gets through:
    an object whose [message], if it has one, is an object. *)
Definition shaped_choice (choice : json) : bool :=
  match choice with
  | JObj c =>
      match Dict.get "message" c with
      | None => true
      | Some (JObj _) => true
      | Some _ => false
      end
  | _ => false
  end.

(** Such a choice with its message patched. *)
Definition patched_choice (choice : json) : json :=
  match choice with
  | JObj c =>
      match Dict.get "message" c with
      | Some (JObj m) =>
          JObj (Dict.set "message" (JObj (_patch_reasoning_in_message m)) c)
      | _ => choice
      end
  | _ => choice
  end.

(** The message of a choice holds no reasoning: it has no
    [reasoning_content], or a null one. *)
Definition no_reasoning (choice : json) : Prop :=
  forall c m : jdict,
    choice = JObj c ->
    Dict.get "message" c = Some (JObj m) ->
    Dict.get "reasoning_content" m = None \/
    Dict.get "reasoning_content" m = Some JNull.

(** A decoded event for which lines 93-99 of [_stream_patch] raise before
    anything is looked up in a first choice: it is not an object, or it
    has no [choices], or its [choices] is an empty list or null. *)
Definition no_first_choice (obj : json) : bool :=
  match obj with
  | JObj o =>
      match Dict.get "choices" o with
      | None => true
      | Some (JArr []) => true
      | Some JNull => true
      | Some _ => false
      end
  | _ => true
  end.

(** The state of the shared client is in order: no client has been
    closed twice, only constructed clients have been closed, and every
    constructed client but the current one has been closed. *)
Definition lifecycle_ok (w : Process) : Prop :=
  NoDup (aclosed w) /\
  (forall i, In i (aclosed w) -> i < constructed w) /\
  match _http_client w with
  | Some client =>
      client_id client < constructed w /\
      ~ In (client_id client) (aclosed w) /\
      constructed w = S (List.length (aclosed w))
  | None => constructed w = List.length (aclosed w)
  end.


(** What a route raises for an exception that [build_request] or [send]
    raised: the forwarder's 504 or 503, or the route's 500 with the text
    of the exception after the route's prefix. *)
Definition route_failure (str_exc : httpx_exc -> string) (prefix : string)
    (e : httpx_exc) : error :=
  if is_TimeoutException e then
    HTTPException 504 "Gateway timeout: backend LLM did not respond in time."
  else if is_RequestError e then
    HTTPException 503 "Backend LLM service unreachable."
  else HTTPException 500 (prefix ++ str_exc e)%string.

(* ===================================================================== *)
(** * Properties *)
(* ===================================================================== *)

(** ** Dictionaries *)

Module DictFacts.
Import Dict.

Section Facts.
Variable V : Type.
Implicit Types (d : Dict.t V) (k : string) (v : V).

Lemma get_set_same k v d : get k (set k v d) = Some v.
Proof.
  induction d as [|[k' v'] d IH]; simpl.
  - now rewrite String.eqb_refl.
  - destruct (String.eqb k' k) eqn:E; simpl.
    + now rewrite String.eqb_refl.
    + now rewrite E.
Qed.

Lemma get_set_other k k' v d : k <> k' -> get k' (set k v d) = get k' d.
Proof.
  intros Hne. induction d as [|[k0 v0] d IH]; simpl.
  - apply String.eqb_neq in Hne. now rewrite Hne.
  - destruct (String.eqb k0 k) eqn:E; simpl.
    + apply String.eqb_eq in E; subst k0.
      apply String.eqb_neq in Hne. now rewrite Hne.
    + destruct (String.eqb k0 k'); auto.
Qed.

Lemma get_del_same k d : get k (del k d) = None.
Proof.
  induction d as [|[k' v'] d IH]; simpl; auto.
  destruct (String.eqb k' k) eqn:E; simpl; auto.
  now rewrite E.
Qed.

Lemma get_del_other k k' d : k <> k' -> get k' (del k d) = get k' d.
Proof.
  intros Hne. induction d as [|[k0 v0] d IH]; simpl; auto.
  destruct (String.eqb k0 k) eqn:E; simpl.
  - apply String.eqb_eq in E; subst k0.
    apply String.eqb_neq in Hne. now rewrite Hne.
  - destruct (String.eqb k0 k'); auto.
Qed.

Lemma del_absent k d : get k d = None -> del k d = d.
Proof.
  induction d as [|[k' v'] d IH]; simpl; auto.
  destruct (String.eqb k' k) eqn:E; simpl; [discriminate|].
  intros H. now rewrite IH.
Qed.

Lemma keys_set_in k v d k' : In k' (keys (set k v d)) <-> k' = k \/ In k' (keys d).
Proof.
  induction d as [|[k0 v0] d IH]; simpl.
  - intuition.
  - destruct (String.eqb k0 k) eqn:E; simpl.
    + apply String.eqb_eq in E; subst. intuition.
    + rewrite IH. intuition.
Qed.

Lemma wf_set k v d : wf d -> wf (set k v d).
Proof.
  unfold wf. induction d as [|[k0 v0] d IH]; simpl; intros H.
  - constructor; [intros []|constructor].
  - inversion H as [|? ? Hnin Hnd]; subst.
    destruct (String.eqb k0 k) eqn:E; simpl.
    + apply String.eqb_eq in E; subst. now constructor.
    + constructor; auto.
      intros Hin. apply keys_set_in in Hin. destruct Hin as [->|Hin]; auto.
      now rewrite String.eqb_refl in E.
Qed.

Lemma wf_del k d : wf d -> wf (del k d).
Proof.
  unfold wf, del, keys. induction d as [|[k0 v0] d IH]; simpl; intros H; auto.
  inversion H as [|? ? Hnin Hnd]; subst.
  destruct (String.eqb k0 k); simpl; auto.
  constructor; auto.
  intros Hin. apply Hnin.
  apply in_map_iff in Hin. destruct Hin as [[k1 v1] [Hk Hin]].
  apply filter_In in Hin. apply in_map_iff. exists (k1, v1). tauto.
Qed.

End Facts.
End DictFacts.

(** ** Field patcher *)

Lemma patch_message_wf (msg : jdict) :
  Dict.wf msg -> Dict.wf (_patch_reasoning_in_message msg).
Proof.
  intros Hwf. unfold _patch_reasoning_in_message.
  destruct (Dict.get "reasoning_content" msg) as [[] |]; auto;
    apply DictFacts.wf_del;
    destruct (Dict.get "content" msg) as [c|]; try destruct (in_none_or_empty c);
    auto using DictFacts.wf_set.
Qed.

Lemma patch_message_unfold (msg : jdict) (rc : json) :
  Dict.get "reasoning_content" msg = Some rc ->
  rc <> JNull ->
  _patch_reasoning_in_message msg =
  Dict.del "reasoning_content"
    (match Dict.get "content" msg with
     | None => Dict.set "content" rc msg
     | Some c => if in_none_or_empty c then Dict.set "content" rc msg else msg
     end).
Proof.
  intros Hrc Hnn. unfold _patch_reasoning_in_message. rewrite Hrc.
  destruct rc; congruence.
Qed.

Lemma patch_message_noop (msg : jdict) :
  Dict.get "reasoning_content" msg = None \/
  Dict.get "reasoning_content" msg = Some JNull ->
  _patch_reasoning_in_message msg = msg.
Proof.
  intros [H | H]; unfold _patch_reasoning_in_message; now rewrite H.
Qed.

(** C1.  Field patcher contract.  When [reasoning_content] is present and
    not null, the patched message has no [reasoning_content]; its
    [content] holds the value that [reasoning_content] had if [content]
    was absent or empty (null or the empty string), and its own value if
    not; every other key holds what it held.  When [reasoning_content]
    is absent or null the message is returned as it was. *)
Theorem field_patcher_contract (msg : jdict) :
  (forall rc : json,
      Dict.get "reasoning_content" msg = Some rc ->
      rc <> JNull ->
      Dict.get "reasoning_content" (_patch_reasoning_in_message msg) = None /\
      (Dict.get "content" msg = None \/
       Dict.get "content" msg = Some JNull \/
       Dict.get "content" msg = Some (JStr EmptyString) ->
       Dict.get "content" (_patch_reasoning_in_message msg) = Some rc) /\
      (forall c : json,
          Dict.get "content" msg = Some c ->
          c <> JNull ->
          c <> JStr EmptyString ->
          Dict.get "content" (_patch_reasoning_in_message msg) = Some c) /\
      (forall k : string,
          k <> "reasoning_content" ->
          k <> "content" ->
          Dict.get k (_patch_reasoning_in_message msg) = Dict.get k msg)) /\
  (Dict.get "reasoning_content" msg = None \/
   Dict.get "reasoning_content" msg = Some JNull ->
   _patch_reasoning_in_message msg = msg).
Proof.
  split; [|apply patch_message_noop].
  intros rc Hrc Hnn. rewrite (patch_message_unfold msg Hrc Hnn).
  split; [apply DictFacts.get_del_same|].
  split; [|split].
  - intros Hc. rewrite DictFacts.get_del_other by discriminate.
    destruct Hc as [Hc | [Hc | Hc]]; rewrite Hc; simpl;
      apply DictFacts.get_set_same.
  - intros c Hc Hnull Hempty.
    rewrite DictFacts.get_del_other by discriminate. rewrite Hc.
    assert (Hkeep : in_none_or_empty c = false).
    { destruct c as [| | | | str | |]; try reflexivity; [congruence|].
      destruct str; [congruence | reflexivity]. }
    now rewrite Hkeep.
  - intros k Hk1 Hk2.
    rewrite DictFacts.get_del_other by congruence.
    destruct (Dict.get "content" msg) as [c|];
      [destruct (in_none_or_empty c)|]; auto;
      apply DictFacts.get_set_other; congruence.
Qed.

Lemma field_patcher_contract_witness :
  let msg := [("role", JStr "assistant"); ("content", JNull);
              ("reasoning_content", JStr "think")] in
  Dict.get "reasoning_content" (_patch_reasoning_in_message msg) = None /\
  Dict.get "content" (_patch_reasoning_in_message msg) = Some (JStr "think") /\
  Dict.get "role" (_patch_reasoning_in_message msg) = Some (JStr "assistant").
Proof.
  intros msg.
  destruct (field_patcher_contract msg) as [Hpresent _].
  destruct (Hpresent (JStr "think")) as (Hdrop & Hmove & _ & Hother).
  - reflexivity.
  - discriminate.
  - split; [exact Hdrop|]. split.
    + apply Hmove. right. left. reflexivity.
    + rewrite Hother by discriminate. reflexivity.
Defined.

(** What the patcher leaves alone: a non-empty [content] and every other
    key keep their values. *)
Lemma patch_message_other_keys (msg : jdict) (k : string) :
  k <> "reasoning_content" ->
  (k <> "content" \/
   exists c, Dict.get "content" msg = Some c /\ in_none_or_empty c = false) ->
  Dict.get k (_patch_reasoning_in_message msg) = Dict.get k msg.
Proof.
  intros Hk Hc. unfold _patch_reasoning_in_message.
  destruct (Dict.get "reasoning_content" msg) as [rc|] eqn:Hrc; auto.
  assert (Hgoal :
    Dict.get k (Dict.del "reasoning_content"
      (match Dict.get "content" msg with
       | None => Dict.set "content" rc msg
       | Some c => if in_none_or_empty c then Dict.set "content" rc msg else msg
       end)) = Dict.get k msg).
  { rewrite DictFacts.get_del_other by congruence.
    destruct Hc as [Hne | [c [Hget Hc]]].
    - destruct (Dict.get "content" msg) as [c|];
        [destruct (in_none_or_empty c)|]; auto;
        apply DictFacts.get_set_other; congruence.
    - rewrite Hget, Hc. reflexivity. }
  destruct rc; auto.
Qed.

(** C2.  Field patcher idempotence: patching a patched message changes
    nothing. *)
Theorem field_patcher_idempotent (msg : jdict) :
  _patch_reasoning_in_message (_patch_reasoning_in_message msg) =
  _patch_reasoning_in_message msg.
Proof.
  destruct (Dict.get "reasoning_content" msg) as [rc|] eqn:Hrc.
  - assert (Hcases : rc = JNull \/ rc <> JNull)
      by (destruct rc; auto; right; discriminate).
    destruct Hcases as [-> | Hnn].
    + now rewrite !(patch_message_noop msg (or_intror Hrc)).
    + rewrite (patch_message_unfold msg Hrc Hnn).
      apply patch_message_noop. left. apply DictFacts.get_del_same.
  - now rewrite !(patch_message_noop msg (or_introl Hrc)).
Qed.

(** ** Byte strings *)

Module BytesFacts.
Import Bytes.

Lemma startswith_skipn (p s : bytes) :
  startswith p s = true -> s = p ++ skipn (List.length p) s.
Proof.
  revert s. induction p as [|x p IH]; intros [|y s]; simpl; auto; try discriminate.
  intros H. apply andb_prop in H. destruct H as [Hxy Hps].
  apply Byte.byte_dec_bl in Hxy. subst y. f_equal. now apply IH.
Qed.

Lemma find_cut (sep s : bytes) (i : nat) :
  find sep s = Some i ->
  s = firstn i s ++ sep ++ skipn (i + List.length sep) s.
Proof.
  revert i. induction s as [|c s IH]; intros i; simpl.
  - destruct (startswith sep []) eqn:E; [|discriminate].
    intros Hi. injection Hi as <-. now apply startswith_skipn in E.
  - destruct (startswith sep (c :: s)) eqn:E.
    + intros Hi. injection Hi as <-. now apply startswith_skipn in E.
    + destruct (find sep s) as [j|]; simpl; [|discriminate].
      intros Hi. injection Hi as <-. simpl. f_equal. now apply IH.
Qed.

Lemma split_fuel_cons (n : nat) (sep s : bytes) :
  exists p rest, split_fuel n sep s = p :: rest.
Proof.
  destruct n; simpl; eauto.
  destruct (find sep s); eauto.
Qed.

(** Joining the pieces of a split with the separator gives the string
    back: the pieces are the spans between the separators, and the last
    piece is what follows the last separator. *)
Lemma join_split_fuel (n : nat) (sep s : bytes) :
  join sep (split_fuel n sep s) = s.
Proof.
  revert s. induction n as [|n IH]; intros s; simpl; auto.
  destruct (find sep s) as [i|] eqn:E; simpl; auto.
  destruct (split_fuel_cons n sep (skipn (i + List.length sep) s)) as [p [rest Hs]].
  specialize (IH (skipn (i + List.length sep) s)).
  rewrite Hs in *. rewrite IH. symmetry. now apply find_cut.
Qed.

Lemma join_split (sep s : bytes) : join sep (split sep s) = s.
Proof. apply join_split_fuel. Qed.

Lemma find_bound (sep s : bytes) (i : nat) :
  find sep s = Some i -> i + List.length sep <= List.length s.
Proof.
  revert i. induction s as [|c s IH]; intros i; simpl.
  - destruct (startswith sep []) eqn:E; [|discriminate].
    intros Hi. injection Hi as <-. apply startswith_skipn in E.
    apply (f_equal (@List.length byte)) in E. rewrite length_app in E.
    simpl in *. lia.
  - destruct (startswith sep (c :: s)) eqn:E.
    + intros Hi. injection Hi as <-. apply startswith_skipn in E.
      apply (f_equal (@List.length byte)) in E. rewrite length_app in E.
      simpl in *. lia.
    + destruct (find sep s) as [j|]; simpl; [|discriminate].
      intros Hi. injection Hi as <-. specialize (IH j eq_refl). lia.
Qed.

(** The rounds allowed to [split] are enough: with a non-empty separator
    more rounds give the same pieces. *)
Lemma split_fuel_enough (sep s : bytes) (n m : nat) :
  sep <> [] ->
  List.length s <= n ->
  List.length s <= m ->
  split_fuel n sep s = split_fuel m sep s.
Proof.
  intros Hsep. revert m s.
  induction n as [|n IH]; intros m s Hn Hm.
  - destruct s; [|simpl in Hn; lia].
    destruct m; cbn [split_fuel]; auto.
    destruct (find sep []) as [i|] eqn:E; auto.
    apply find_bound in E. destruct sep; [congruence | simpl in E; lia].
  - cbn [split_fuel]. destruct (find sep s) as [i|] eqn:E.
    + pose proof (find_bound _ _ E) as Hb.
      assert (Hlen : 0 < List.length sep) by (destruct sep; [congruence | simpl; lia]).
      destruct m as [|m]; [lia|]. cbn [split_fuel]. rewrite E. f_equal.
      apply IH; rewrite length_skipn; lia.
    + destruct m; cbn [split_fuel]; auto. now rewrite E.
Qed.

Lemma split_more_fuel (sep s : bytes) (n : nat) :
  sep <> [] -> List.length s <= n -> split_fuel n sep s = split sep s.
Proof. intros Hsep Hn. now apply split_fuel_enough. Qed.

Lemma eqb_eq (a b : bytes) : eqb a b = true -> a = b.
Proof.
  revert b. induction a as [|x a IH]; intros [|y b]; simpl; auto; try discriminate.
  intros H. apply andb_prop in H. destruct H as [Hxy Hab].
  apply Byte.byte_dec_bl in Hxy. subst. f_equal. auto.
Qed.

End BytesFacts.

(** ** The SSE splitter *)

Section GatewayFacts.
Context {py : PyLib}.

Lemma patch_event_passthrough (event : bytes) :
  Bytes.startswith DATA event = false ->
  patch_event event = Ok (event ++ DELIM).
Proof. intros H. unfold patch_event. now rewrite H. Qed.

Lemma patch_event_done (event : bytes) :
  Bytes.strip (skipn 5 event) = DONE ->
  patch_event event = Ok (event ++ DELIM).
Proof.
  intros H. unfold patch_event. rewrite H.
  destruct (Bytes.startswith DATA event); reflexivity.
Qed.


Lemma patch_event_decoded (event : bytes) (obj : json) :
  Bytes.startswith DATA event = true ->
  Bytes.eqb (Bytes.strip (skipn 5 event)) DONE = false ->
  loads (Bytes.strip (skipn 5 event)) = Some obj ->
  patch_event event =
  (obj' <- patch_event_obj obj ;; Ok (Bytes.lit "data: " ++ dumps obj' ++ DELIM)).
Proof.
  intros Hd Hn Hl. unfold patch_event. now rewrite Hd, Hn, Hl.
Qed.

(** The events before the first one that raises are yielded one by one. *)
Lemma patch_events_app (chunk : bytes) (pre rest : list bytes) (outs : list bytes) :
  mapM patch_event pre = Ok outs ->
  patch_events chunk (pre ++ rest) = outs ++ patch_events chunk rest.
Proof.
  revert outs. induction pre as [|ev pre IH]; simpl; intros outs H.
  - now injection H as <-.
  - destruct (patch_event ev) as [out|]; simpl in H; [|discriminate].
    destruct (mapM patch_event pre) as [outs'|]; simpl in H; [|discriminate].
    injection H as <-. simpl. f_equal. now apply IH.
Qed.


(** The exception fallback: the events before the one that raises have
    been yielded, then the whole chunk is yielded and the events after
    it are not looked at. *)
Lemma patch_events_raise (chunk : bytes) (pre post : list bytes)
      (event : bytes) (outs : list bytes) (e : pyexc) :
  mapM patch_event pre = Ok outs ->
  patch_event event = Raise e ->
  patch_events chunk (pre ++ event :: post) = outs ++ [chunk].
Proof.
  intros Hpre Hev. rewrite (@patch_events_app chunk pre (event :: post) outs Hpre).
  simpl. now rewrite Hev.
Qed.


(** A decoded event of the usual shape: the first choice is an object
    whose [delta] is an object.  The patched event differs in that
    [delta] only, which has lost [reasoning_content]. *)
Lemma patch_event_obj_delta (o c d : jdict) (rest : list json) (rc : json) :
  Dict.get "choices" o = Some (JArr (JObj c :: rest)) ->
  Dict.get "delta" c = Some (JObj d) ->
  Dict.get "reasoning_content" d = Some rc ->
  exists d' : jdict,
    patch_event_obj (JObj o) =
    Ok (JObj (Dict.set "choices" (JArr (JObj (Dict.set "delta" (JObj d') c) :: rest)) o)) /\
    Dict.get "reasoning_content" d' = None.
Proof.
  intros Ho Hc Hd.
  unfold patch_event_obj, py_get, Dict.get_default. rewrite Ho. simpl.
  rewrite Hc. simpl. rewrite Hd.
  destruct (Dict.get "content" d) as [cv|]; [destruct (in_none_or_empty cv)|];
    simpl; rewrite Ho; simpl; eexists; split; try reflexivity.
  - rewrite DictFacts.get_set_other by discriminate. apply DictFacts.get_del_same.
  - apply DictFacts.get_del_same.
  - rewrite DictFacts.get_set_other by discriminate. apply DictFacts.get_del_same.
Qed.

Lemma concat_patch_events_passthrough (whole : bytes) (events : list bytes) :
  Forall (fun ev => Bytes.startswith DATA ev = false) events ->
  List.concat (patch_events whole events) =
  match events with
  | [] => []
  | _ => Bytes.join DELIM events ++ DELIM
  end.
Proof.
  induction 1 as [|ev evs Hev Hevs IH]; [reflexivity|].
  cbn [patch_events]. rewrite (@patch_event_passthrough ev Hev).
  cbn [List.concat]. rewrite IH.
  destruct evs as [|ev' evs']; cbn [Bytes.join].
  - now rewrite app_nil_r.
  - now rewrite <- !app_assoc.
Qed.

(** Without a chunk boundary inside a frame and without [data:] events,
    a chunk still does not come out as it went in: the piece after the
    last delimiter is an event too, and gets a delimiter of its own. *)
Lemma patch_chunk_passthrough (chunk : bytes) :
  Forall (fun ev => Bytes.startswith DATA ev = false) (Bytes.split DELIM chunk) ->
  List.concat (patch_chunk chunk) = chunk ++ DELIM.
Proof.
  unfold patch_chunk. intros Hall.
  rewrite (concat_patch_events_passthrough chunk Hall).
  rewrite <- (BytesFacts.join_split DELIM chunk) at 2.
  unfold Bytes.split in *.
  destruct (BytesFacts.split_fuel_cons (List.length chunk) DELIM chunk) as [p [rest Hs]].
  now rewrite Hs.
Qed.

(** ** Response normaliser *)


(** C7.  Backend-error pass-through.  On the non-streaming path a
    response with a status of 400 or more comes back with that status and
    with the bytes read from the backend as its only chunk. *)
Theorem backend_error_passthrough (response : Response) :
  (400 <= resp_status_code response)%Z ->
  exists sr : StreamingResponse,
    _handle_backend_response response false = Returns sr /\
    sr_status_code sr = resp_status_code response /\
    sr_body sr = [aread response].
Proof.
  intros Hstatus. unfold _handle_backend_response.
  apply Z.leb_le in Hstatus. rewrite Hstatus.
  eexists. split; [reflexivity|]. split; reflexivity.
Qed.

End GatewayFacts.

Lemma backend_error_passthrough_witness :
  let py := PyJson.lib in
  let response := {| resp_status_code := 500;
                     resp_headers := [("content-type", "application/json")];
                     resp_chunks := [Bytes.lit "{'error':'oom'}"] |} in
  exists sr : StreamingResponse,
    _handle_backend_response response false = Returns sr /\
    sr_status_code sr = 500%Z /\
    sr_body sr = [Bytes.lit "{'error':'oom'}"].
Proof.
  intros py response.
  apply (@backend_error_passthrough py response).
  vm_compute. discriminate.
Defined.

(** ** The splitter on concrete streams *)

(** C10.  The exception fallback can duplicate frames.  A chunk holds a
    well-formed data frame and then a data frame whose object has an empty
    [choices] list.  The first frame is yielded patched; the second raises
    an [IndexError] at [[0]]; the handler then yields the whole chunk, so
    the first frame is in the output a second time, unpatched. *)
Theorem exception_fallback_duplicates_frames :
  exists (chunk first second patched : bytes),
    chunk = first ++ DELIM ++ second ++ DELIM /\
    Bytes.split DELIM chunk = [first; second; []] /\
    @patch_event PyJson.lib first = Ok patched /\
    @patch_event PyJson.lib second = Raise IndexError /\
    @_stream_patch PyJson.lib [chunk] = [patched; chunk].
Proof.
  exists (Bytes.lit
    "data: {'choices': [{'delta': {'reasoning_content': 'hi'}}]}~~data: {'choices': []}~~").
  exists (Bytes.lit "data: {'choices': [{'delta': {'reasoning_content': 'hi'}}]}").
  exists (Bytes.lit "data: {'choices': []}").
  exists (Bytes.lit "data: {'choices': [{'delta': {'content': 'hi'}}]}~~").
  repeat split; vm_compute; reflexivity.
Qed.

(** C3.  SSE round trip, on a stream of one data frame with a
    [reasoning_content] and the [[DONE]] frame.  When the stream arrives
    as one chunk the output has the two frames, the first patched, the
    second as it was.  When a chunk boundary falls inside the data frame
    the output has three frames for the two of the input: the first is
    the head of the data frame, whose payload does not decode, the second
    its tail, still holding [reasoning_content]; only the [[DONE]] frame
    is as it was. *)
Example sse_roundtrip_fails_on_cut_frame :
  let part1 := Bytes.lit "data: {'choices': [{'delta': {'reasoning_" in
  let part2 := Bytes.lit "content': 'hi'}}]}~~data: [DONE]~~" in
  let input := part1 ++ part2 in
  let whole := List.concat (@_stream_patch PyJson.lib [input]) in
  let cut := List.concat (@_stream_patch PyJson.lib [part1; part2]) in
  frames input =
    [Bytes.lit "data: {'choices': [{'delta': {'reasoning_content': 'hi'}}]}";
     Bytes.lit "data: [DONE]"] /\
  frames whole =
    [Bytes.lit "data: {'choices': [{'delta': {'content': 'hi'}}]}";
     Bytes.lit "data: [DONE]"] /\
  frames cut =
    [Bytes.lit "data: {'choices': [{'delta': {'reasoning_";
     Bytes.lit "content': 'hi'}}]}";
     Bytes.lit "data: [DONE]"] /\
  List.length (frames cut) <> List.length (frames input) /\
  @loads PyJson.lib
    (Bytes.strip (skipn 5 (Bytes.lit "data: {'choices': [{'delta': {'reasoning_")))
    = None /\
  cut = Bytes.lit
    "data: {'choices': [{'delta': {'reasoning_~~content': 'hi'}}]}~~data: [DONE]~~~~".
Proof.
  repeat split; try (vm_compute; reflexivity).
  vm_compute. discriminate.
Qed.

(** C4.  Chunk boundaries.  The same bytes are patched when they arrive
    as one chunk, and are not when a chunk boundary falls inside the
    frame: each part is then handled as an event of its own, a delimiter
    is put between the two parts, and [reasoning_content] stays. *)
Example split_frame_is_not_reassembled :
  let part1 := Bytes.lit "data: {'choices': [{'delta': {'reasoning_" in
  let part2 := Bytes.lit "content': 'hi'}}]}~~" in
  List.concat (@_stream_patch PyJson.lib [part1 ++ part2]) =
    Bytes.lit "data: {'choices': [{'delta': {'content': 'hi'}}]}~~~~" /\
  List.concat (@_stream_patch PyJson.lib [part1; part2]) =
    Bytes.lit "data: {'choices': [{'delta': {'reasoning_~~content': 'hi'}}]}~~~~" /\
  List.concat (@_stream_patch PyJson.lib [part1; part2]) <>
  List.concat (@_stream_patch PyJson.lib [part1 ++ part2]).
Proof.
  repeat split; try (vm_compute; reflexivity).
  vm_compute. discriminate.
Qed.

(** ** Chat path: the outbound payload *)

Lemma get_app (V : Type) (k : string) (a b : Dict.t V) :
  Dict.get k (a ++ b) =
  match Dict.get k a with
  | Some v => Some v
  | None => Dict.get k b
  end.
Proof.
  induction a as [|[k' v'] a IH]; simpl; auto.
  destruct (String.eqb k' k); auto.
Qed.

Lemma get_item (k k' : string) (v : option json) :
  Dict.get k (Schemas.item k' v) = if String.eqb k' k then v else None.
Proof.
  destruct v as [x|]; simpl; destruct (String.eqb k' k); reflexivity.
Qed.


Lemma get_setdefault_other (V : Type) (k k' : string) (v : V) (d : Dict.t V) :
  k <> k' -> Dict.get k' (Dict.setdefault k v d) = Dict.get k' d.
Proof.
  intros Hne. unfold Dict.setdefault.
  destruct (Dict.mem k d); auto using DictFacts.get_set_other.
Qed.

(** What the caller set, read off the dump key by key. *)
Lemma get_model_dump (r : Schemas.ChatCompletionRequest) (k : string) :
  Dict.get k (Schemas.model_dump_exclude_unset r) =
  if String.eqb "model" k then Some (JStr (Schemas.model r))
  else if String.eqb "messages" k
       then Some (JArr (map Schemas.dump_message (Schemas.messages r)))
  else
    let field (name : string) (v : option json) (next : option json) :=
      match (if String.eqb name k then v else None) with
      | Some x => Some x
      | None => next
      end in
    field "temperature" (Schemas.temperature r)
   (field "top_p" (Schemas.top_p r)
   (field "top_k" (Schemas.top_k r)
   (field "n" (Schemas.n r)
   (field "stream" (Schemas.stream r)
   (field "stop" (Schemas.stop r)
   (field "max_tokens" (Schemas.max_tokens r)
   (field "presence_penalty" (Schemas.presence_penalty r)
   (field "frequency_penalty" (Schemas.frequency_penalty r)
   (field "logit_bias" (Schemas.logit_bias r)
   (field "user" (Schemas.user r)
   (Dict.get k (Schemas.model_extra r)))))))))))).
Proof.
  unfold Schemas.model_dump_exclude_unset.
  cbn [app Dict.get].
  destruct (String.eqb "model" k); auto.
  destruct (String.eqb "messages" k); auto.
  cbv zeta. now rewrite !get_app, !get_item.
Qed.

(** A declared optional field is in the dump exactly when the caller set
    it. *)
Lemma get_model_dump_declared (r : Schemas.ChatCompletionRequest) :
  Schemas.valid r ->
  let sent := Schemas.model_dump_exclude_unset r in
  Dict.get "temperature" sent = Schemas.temperature r /\
  Dict.get "top_p" sent = Schemas.top_p r /\
  Dict.get "top_k" sent = Schemas.top_k r /\
  Dict.get "n" sent = Schemas.n r /\
  Dict.get "stream" sent = Schemas.stream r /\
  Dict.get "stop" sent = Schemas.stop r /\
  Dict.get "max_tokens" sent = Schemas.max_tokens r /\
  Dict.get "presence_penalty" sent = Schemas.presence_penalty r /\
  Dict.get "frequency_penalty" sent = Schemas.frequency_penalty r /\
  Dict.get "logit_bias" sent = Schemas.logit_bias r /\
  Dict.get "user" sent = Schemas.user r.
Proof.
  intros [_ Hextra] sent. unfold sent.
  repeat split; rewrite get_model_dump; cbn;
    rewrite Hextra by (cbn; tauto);
    match goal with |- match ?f with _ => _ end = _ => now destruct f end.
Qed.



(** ** Backend failures *)

Section ForwarderFacts.
Context {py : PyLib}.
Variable settings : Settings.
Variable backend : Backend.

Lemma try_send_raises (A : Type) (req : OutboundRequest)
      (k : Response -> outcome A) (e : httpx_exc) :
  backend req = inl e ->
  try_send backend req k [] = (Raises (backend_failure e), [req]).
Proof.
  intros H. unfold try_send, send. now rewrite H.
Qed.


(** Failures of the call itself.  When [build_request]/[send] raises [e]
    for the request of a forwarder, the forwarder raises
    [HTTPException(504, ...)] if [e] is a [TimeoutException] and
    [HTTPException(503, ...)] if [e] is another [RequestError], each with
    its detail message, and the log of requests sent holds that one
    request. *)
Theorem backend_failure_taxonomy (e : httpx_exc) :
  (forall r : Schemas.ChatCompletionRequest,
      backend (chat_outbound settings r) = inl e ->
      (is_TimeoutException e = true ->
       forward_chat_completion_request_to_vllm settings backend r [] =
       (Raises (HTTPException 504
                  "Gateway timeout: backend LLM did not respond in time."),
        [chat_outbound settings r])) /\
      (is_TimeoutException e = false ->
       is_RequestError e = true ->
       forward_chat_completion_request_to_vllm settings backend r [] =
       (Raises (HTTPException 503 "Backend LLM service unreachable."),
        [chat_outbound settings r]))) /\
  (forall request : Request,
      backend (generic_outbound settings request) = inl e ->
      (is_TimeoutException e = true ->
       forward_generic_request_to_vllm settings backend request [] =
       (Raises (HTTPException 504
                  "Gateway timeout: backend LLM did not respond in time."),
        [generic_outbound settings request])) /\
      (is_TimeoutException e = false ->
       is_RequestError e = true ->
       forward_generic_request_to_vllm settings backend request [] =
       (Raises (HTTPException 503 "Backend LLM service unreachable."),
        [generic_outbound settings request]))).
Proof.
  split.
  - intros r Hraise.
    unfold forward_chat_completion_request_to_vllm.
    erewrite try_send_raises by exact Hraise. unfold backend_failure.
    split.
    + intros Ht. now rewrite Ht.
    + intros Ht Hr. now rewrite Ht, Hr.
  - intros request Hraise.
    unfold forward_generic_request_to_vllm.
    erewrite try_send_raises by exact Hraise. unfold backend_failure.
    split.
    + intros Ht. now rewrite Ht.
    + intros Ht Hr. now rewrite Ht, Hr.
Qed.

End ForwarderFacts.

Lemma backend_failure_taxonomy_witness :
  let request := {| req_method := "GET";
                    req_url_path := "/v1/models";
                    req_url_query := EmptyString;
                    req_headers := [("host", "gateway"); ("accept", "*/*")];
                    req_body := [] |} in
  let sent := generic_outbound default_settings request in
  @forward_generic_request_to_vllm PyJson.lib default_settings
     (fun _ => inl ReadTimeout) request [] =
  (Raises (HTTPException 504
             "Gateway timeout: backend LLM did not respond in time."), [sent]) /\
  @forward_generic_request_to_vllm PyJson.lib default_settings
     (fun _ => inl ConnectError) request [] =
  (Raises (HTTPException 503 "Backend LLM service unreachable."), [sent]).
Proof.
  intros request sent. split.
  - destruct (@backend_failure_taxonomy PyJson.lib default_settings
                (fun _ => inl ReadTimeout) ReadTimeout) as [_ Hgeneric].
    destruct (Hgeneric request) as [Htimeout _]; [reflexivity|].
    apply Htimeout. reflexivity.
  - destruct (@backend_failure_taxonomy PyJson.lib default_settings
                (fun _ => inl ConnectError) ConnectError) as [_ Hgeneric].
    destruct (Hgeneric request) as [_ Hunreachable]; [reflexivity|].
    apply Hunreachable; reflexivity.
Defined.

(** ** Generic path: the outbound request *)

Lemma set_fresh (V : Type) (k : string) (v : V) (d : Dict.t V) :
  ~ In k (Dict.keys d) -> Dict.set k v d = d ++ [(k, v)].
Proof.
  induction d as [|[k' v'] d IH]; simpl; intros Hnin; auto.
  destruct (String.eqb_spec k' k) as [-> | Hne].
  - tauto.
  - f_equal. apply IH. tauto.
Qed.

Lemma of_items_distinct_acc (V : Type) (items acc : list (string * V)) :
  NoDup (Dict.keys (acc ++ items)) ->
  fold_left (fun d kv => Dict.set (fst kv) (snd kv) d) items acc = acc ++ items.
Proof.
  revert acc. induction items as [|[k v] items IH]; intros acc Hnd; simpl.
  - now rewrite app_nil_r.
  - assert (Hnin : ~ In k (Dict.keys acc)).
    { unfold Dict.keys in *. rewrite map_app in Hnd. simpl in Hnd.
      apply NoDup_remove_2 in Hnd. rewrite in_app_iff in Hnd. tauto. }
    rewrite set_fresh by exact Hnin.
    replace (acc ++ (k, v) :: items) with ((acc ++ [(k, v)]) ++ items)
      by now rewrite <- app_assoc.
    apply IH. now rewrite <- app_assoc.
Qed.

(** A dictionary built from items with distinct keys holds the items. *)
Lemma of_items_distinct (V : Type) (items : list (string * V)) :
  NoDup (Dict.keys items) -> Dict.of_items items = items.
Proof. intros H. unfold Dict.of_items. now rewrite of_items_distinct_acc. Qed.

(** X17.  The outbound request of the generic path.  For every inbound
    request the URL is the base URL, the path and, when the query is not
    empty, a question mark and the query; the method and the bytes of the
    body are those of the inbound request; the response is expected to
    stream exactly when the first [accept] line, in lower case, contains
    [text/event-stream]; and when no header name comes twice the headers
    are the inbound ones without [host], [content-length],
    [transfer-encoding] and [connection], in their order. *)
Lemma generic_outbound_spec (settings : Settings) (request : Request) :
  let out := generic_outbound settings request in
  out_url out =
    (VLLM_BASE_URL settings ++ req_url_path request ++
     match req_url_query request with
     | EmptyString => EmptyString
     | q => "?" ++ q
     end)%string /\
  out_method out = req_method request /\
  out_body out = req_body request /\
  expect_stream request =
    Str.contains "text/event-stream"
      (Str.lower (headers_get "accept" EmptyString (req_headers request))) /\
  (NoDup (Dict.keys (req_headers request)) ->
   out_headers out =
     Some (filter (not_excluded request_excluded) (req_headers request))).
Proof.
  cbv zeta. repeat split.
  - unfold out_body. simpl. now destruct (req_body request).
  - intros Hnd. simpl. unfold filter_headers. f_equal.
    apply of_items_distinct. unfold Dict.keys in *.
    induction (req_headers request) as [|[k v] items IH]; simpl; [constructor|].
    inversion Hnd as [|? ? Hnin Hnd']; subst.
    destruct (not_excluded request_excluded (k, v)); simpl; auto.
    constructor; auto.
    intros Hin. apply Hnin. apply in_map_iff in Hin.
    destruct Hin as [kv [Hk Hin]]. apply filter_In in Hin.
    apply in_map_iff. exists kv. tauto.
Qed.

(** C9.  Generic forwarder reconstruction, on a request with a repeated
    header line.  URL, method and body are those of the inbound request,
    and [host] is dropped, but of the two [x-forwarded-for] lines the
    outbound headers hold the last one only: the dictionary built from
    the header items has room for one value per name. *)
Example generic_forwarder_drops_repeated_header :
  let request := {| req_method := "GET";
                    req_url_path := "/v1/models";
                    req_url_query := "limit=5";
                    req_headers := [("host", "gateway:8000");
                                    ("x-forwarded-for", "10.0.0.1");
                                    ("x-forwarded-for", "10.0.0.2")];
                    req_body := [] |} in
  let out := generic_outbound default_settings request in
  out_url out = "http://localhost:10001/v1/models?limit=5" /\
  out_method out = "GET" /\
  out_body out = [] /\
  filter (not_excluded request_excluded) (req_headers request) =
    [("x-forwarded-for", "10.0.0.1"); ("x-forwarded-for", "10.0.0.2")] /\
  out_headers out = Some [("x-forwarded-for", "10.0.0.2")].
Proof.
  repeat split.
Qed.

(* ===================================================================== *)
(** * Further properties *)
(* ===================================================================== *)

(** ** More on dictionaries *)

Lemma set_same (V : Type) (k : string) (v : V) (d : Dict.t V) :
  Dict.get k d = Some v -> Dict.set k v d = d.
Proof.
  induction d as [|[k' v'] d IH]; simpl; [discriminate|].
  destruct (String.eqb_spec k' k) as [-> | Hne].
  - intros H. now injection H as ->.
  - intros H. now rewrite IH.
Qed.

Lemma set_set (V : Type) (k : string) (v v' : V) (d : Dict.t V) :
  Dict.set k v (Dict.set k v' d) = Dict.set k v d.
Proof.
  induction d as [|[k0 v0] d IH]; simpl.
  - now rewrite String.eqb_refl.
  - destruct (String.eqb k0 k) eqn:E; simpl.
    + now rewrite String.eqb_refl.
    + now rewrite E, IH.
Qed.

Lemma keys_set (V : Type) (k : string) (v : V) (d : Dict.t V) :
  Dict.keys (Dict.set k v d) =
  if Dict.mem k d then Dict.keys d else Dict.keys d ++ [k].
Proof.
  unfold Dict.mem. induction d as [|[k0 v0] d IH]; simpl; auto.
  destruct (String.eqb_spec k0 k) as [-> | Hne]; simpl; auto.
  rewrite IH. now destruct (Dict.get k d).
Qed.

Lemma keys_del (V : Type) (k : string) (d : Dict.t V) :
  Dict.keys (Dict.del k d) =
  filter (fun k' => negb (String.eqb k' k)) (Dict.keys d).
Proof.
  unfold Dict.del. induction d as [|[k0 v0] d IH]; simpl; auto.
  destruct (String.eqb k0 k); simpl; now rewrite IH.
Qed.

Lemma mem_set_other (V : Type) (k k' : string) (v : V) (d : Dict.t V) :
  k <> k' -> Dict.mem k' (Dict.set k v d) = Dict.mem k' d.
Proof.
  intros Hne. unfold Dict.mem. now rewrite DictFacts.get_set_other.
Qed.

(** ** More on the field patcher *)

(** X1.  What a patched message holds under each key.  Without a
    [reasoning_content], or with a null one, it holds what it held.
    Otherwise [reasoning_content] is gone, [content] holds the reasoning
    when it was absent, null or the empty string and its own value when
    not, and every other key holds what it held. *)
Theorem patch_message_lookup (msg : jdict) (k : string) :
  Dict.get k (_patch_reasoning_in_message msg) =
  match Dict.get "reasoning_content" msg with
  | None | Some JNull => Dict.get k msg
  | Some rc =>
      if String.eqb "reasoning_content" k then None
      else if String.eqb "content" k then
        match Dict.get "content" msg with
        | None => Some rc
        | Some c => if in_none_or_empty c then Some rc else Some c
        end
      else Dict.get k msg
  end.
Proof.
  destruct (Dict.get "reasoning_content" msg) as [rc|] eqn:Hrc;
    [|now rewrite patch_message_noop by auto].
  assert (Hcases : rc = JNull \/ rc <> JNull)
    by (destruct rc; auto; right; discriminate).
  destruct Hcases as [-> | Hnn]; [now rewrite patch_message_noop by auto|].
  rewrite (patch_message_unfold msg Hrc Hnn).
  assert (Hgoal :
    Dict.get k (Dict.del "reasoning_content"
      (match Dict.get "content" msg with
       | None => Dict.set "content" rc msg
       | Some c => if in_none_or_empty c then Dict.set "content" rc msg else msg
       end)) =
    if String.eqb "reasoning_content" k then None
    else if String.eqb "content" k then
      match Dict.get "content" msg with
      | None => Some rc
      | Some c => if in_none_or_empty c then Some rc else Some c
      end
    else Dict.get k msg).
  { destruct (String.eqb_spec "reasoning_content" k) as [<- | Hk1].
    - apply DictFacts.get_del_same.
    - rewrite DictFacts.get_del_other by assumption.
      destruct (String.eqb_spec "content" k) as [<- | Hk2].
      + destruct (Dict.get "content" msg) as [c|] eqn:Hc;
          [destruct (in_none_or_empty c)|];
          auto using DictFacts.get_set_same.
      + destruct (Dict.get "content" msg) as [c|];
          [destruct (in_none_or_empty c)|];
          auto using DictFacts.get_set_other. }
  destruct rc; try exact Hgoal. congruence.
Qed.

(** X2.  The order of the keys.  Patching a message that has a non-null
    [reasoning_content] keeps the other keys in their order; a [content]
    that was there keeps its place, and one that was missing goes last. *)
Theorem patch_message_keys (msg : jdict) (rc : json) :
  Dict.get "reasoning_content" msg = Some rc ->
  rc <> JNull ->
  Dict.keys (_patch_reasoning_in_message msg) =
  filter (fun k => negb (String.eqb k "reasoning_content")) (Dict.keys msg)
    ++ (if Dict.mem "content" msg then [] else ["content"]).
Proof.
  intros Hrc Hnn. rewrite (patch_message_unfold msg Hrc Hnn).
  rewrite keys_del. unfold Dict.mem.
  destruct (Dict.get "content" msg) as [c|] eqn:Hc.
  - rewrite app_nil_r.
    destruct (in_none_or_empty c); auto.
    rewrite keys_set. unfold Dict.mem. now rewrite Hc.
  - rewrite keys_set. unfold Dict.mem. rewrite Hc.
    now rewrite filter_app.
Qed.

Lemma patch_message_keys_witness :
  let msg := [("role", JStr "assistant"); ("reasoning_content", JStr "think");
              ("content", JStr EmptyString); ("name", JNull)] in
  Dict.keys (_patch_reasoning_in_message msg) = ["role"; "content"; "name"].
Proof.
  intros msg.
  apply (@patch_message_keys msg (JStr "think")).
  - reflexivity.
  - discriminate.
Defined.

Lemma patch_message_no_reasoning (m : jdict) :
  Dict.get "reasoning_content" (_patch_reasoning_in_message m) = None \/
  Dict.get "reasoning_content" (_patch_reasoning_in_message m) = Some JNull.
Proof.
  destruct (Dict.get "reasoning_content" m) as [rc|] eqn:Hrc.
  - assert (Hcases : rc = JNull \/ rc <> JNull)
      by (destruct rc; auto; right; discriminate).
    destruct Hcases as [-> | Hnn].
    + right. now rewrite patch_message_noop by auto.
    + left. rewrite (patch_message_unfold m Hrc Hnn).
      apply DictFacts.get_del_same.
  - left. now rewrite patch_message_noop by auto.
Qed.

Lemma patch_message_again (m : jdict) :
  _patch_reasoning_in_message (_patch_reasoning_in_message m) =
  _patch_reasoning_in_message m.
Proof.
  apply patch_message_noop. apply patch_message_no_reasoning.
Qed.

(** ** More on non-streaming bodies *)

Lemma mapM_map (A B : Type) (f : A -> exc B) (g : A -> B) (l : list A) :
  (forall x, In x l -> f x = Ok (g x)) -> mapM f l = Ok (map g l).
Proof.
  induction l as [|a l IH]; simpl; intros H; auto.
  rewrite (H a) by auto. simpl. rewrite IH by auto. reflexivity.
Qed.

Lemma mapM_raise (A B : Type) (f : A -> exc B) (l : list A) (x : A) (e : pyexc) :
  In x l -> f x = Raise e -> exists e', mapM f l = Raise e'.
Proof.
  induction l as [|a l IH]; simpl; [tauto|].
  intros [-> | Hin] Hx.
  - rewrite Hx. simpl. eauto.
  - destruct (f a); simpl; eauto.
    destruct (IH Hin Hx) as [e' ->]. simpl. eauto.
Qed.

Lemma mapM_fixed (A : Type) (f : A -> exc A) (l l' : list A) :
  (forall x y, f x = Ok y -> f y = Ok y) ->
  mapM f l = Ok l' -> mapM f l' = Ok l'.
Proof.
  intros Hf. revert l'. induction l as [|a l IH]; simpl; intros l' H.
  - now injection H as <-.
  - destruct (f a) as [b|] eqn:Ea; simpl in H; [|discriminate].
    destruct (mapM f l) as [bs|] eqn:El; simpl in H; [|discriminate].
    injection H as <-. simpl. rewrite (Hf _ _ Ea). simpl.
    now rewrite (IH bs eq_refl).
Qed.

Lemma patch_choice_shaped (choice : json) :
  shaped_choice choice = true -> patch_choice choice = Ok (patched_choice choice).
Proof.
  destruct choice as [| | | | | |c]; simpl; try discriminate.
  destruct (Dict.get "message" c) as [[]|]; simpl; auto; discriminate.
Qed.

Lemma patch_choice_unshaped (choice : json) :
  shaped_choice choice = false -> patch_choice choice = Raise AttributeError.
Proof.
  destruct choice as [| | | | | |c]; simpl; auto.
  destruct (Dict.get "message" c) as [[]|]; simpl; auto; discriminate.
Qed.

Lemma patched_choice_no_reasoning (choice : json) :
  no_reasoning (patched_choice choice).
Proof.
  intros c' m' Heq Hmsg.
  destruct choice as [| | | | | |c]; simpl in Heq; try discriminate.
  destruct (Dict.get "message" c) as [v|] eqn:Hm.
  - destruct v; injection Heq as <-; try congruence.
    rewrite DictFacts.get_set_same in Hmsg. injection Hmsg as <-.
    apply patch_message_no_reasoning.
  - injection Heq as <-. congruence.
Qed.

Lemma patched_choice_clean (choice : json) :
  no_reasoning choice -> patched_choice choice = choice.
Proof.
  intros Hclean.
  destruct choice as [| | | | | |c]; simpl; auto.
  destruct (Dict.get "message" c) as [v|] eqn:Hm; auto.
  destruct v; auto.
  rewrite (patch_message_noop _ (Hclean c fields eq_refl Hm)).
  now rewrite set_same.
Qed.

Lemma patch_choice_again (choice choice' : json) :
  patch_choice choice = Ok choice' -> patch_choice choice' = Ok choice'.
Proof.
  intros H.
  destruct (shaped_choice choice) eqn:Hs.
  - rewrite (patch_choice_shaped _ Hs) in H. injection H as <-.
    destruct choice as [| | | | | |c]; simpl in *; try discriminate.
    destruct (Dict.get "message" c) as [v|] eqn:Hm.
    + destruct v; try discriminate. simpl.
      rewrite DictFacts.get_set_same, patch_message_again.
      now rewrite set_set.
    + simpl. now rewrite Hm.
  - rewrite (patch_choice_unshaped _ Hs) in H. discriminate.
Qed.

Lemma patch_data_again (data data' : json) :
  patch_data data = Ok data' -> patch_data data' = Ok data'.
Proof.
  intros H. pose proof H as H0.
  destruct data as [| | | | | |d]; simpl in H; try discriminate.
  destruct (Dict.get "choices" d) as [v|] eqn:Hc;
    [|injection H as <-; exact H0].
  destruct v as [| | | | |l|].
  6: { destruct (mapM patch_choice l) as [l'|] eqn:El; simpl in H; [|discriminate].
       injection H as <-. simpl.
       rewrite DictFacts.get_set_same.
       rewrite (@mapM_fixed json patch_choice l l' patch_choice_again El). simpl.
       now rewrite set_set. }
  all: simpl in H; try discriminate.
  all: destruct (mapM patch_choice _); simpl in H; [|discriminate].
  all: injection H as <-; exact H0.
Qed.

Section BodyFacts.
Context {py : PyLib}.

(** X3.  A completion that decodes to an object whose [choices] is a list
    of objects, each with an object as [message] or none: the body
    returned is the serialisation of the same object with the message of
    every choice patched, the choices in their order, and no message in
    it holds reasoning. *)
Theorem patch_json_bytes_shaped (body : bytes) (d : jdict) (l : list json) :
  loads body = Some (JObj d) ->
  Dict.get "choices" d = Some (JArr l) ->
  forallb shaped_choice l = true ->
  _patch_reasoning_in_json_bytes body =
    dumps (JObj (Dict.set "choices" (JArr (map patched_choice l)) d)) /\
  Forall no_reasoning (map patched_choice l).
Proof.
  intros Hl Hc Hs. split.
  - unfold _patch_reasoning_in_json_bytes. rewrite Hl. simpl. rewrite Hc.
    rewrite (mapM_map patch_choice patched_choice).
    + reflexivity.
    + intros x Hx. apply patch_choice_shaped.
      rewrite forallb_forall in Hs. auto.
  - apply Forall_forall. intros x Hx. apply in_map_iff in Hx.
    destruct Hx as [ch [<- _]]. apply patched_choice_no_reasoning.
Qed.

(** X4.  All or nothing.  When the decoded body is not an object, or its
    [choices] is null, or one of its choices is not an object or has a
    [message] that is not an object, the original bytes are returned:
    no choice is patched, not even those before the offending one. *)
Theorem patch_json_bytes_fallback (body : bytes) (data : json) :
  loads body = Some data ->
  (forall d, data <> JObj d) \/
  (exists d, data = JObj d /\ Dict.get "choices" d = Some JNull) \/
  (exists d l choice,
      data = JObj d /\ Dict.get "choices" d = Some (JArr l) /\
      In choice l /\ shaped_choice choice = false) ->
  _patch_reasoning_in_json_bytes body = body.
Proof.
  intros Hl Hwhy. unfold _patch_reasoning_in_json_bytes. rewrite Hl.
  destruct Hwhy as [Hno | [[d [-> Hc]] | [d [l [ch [-> [Hc [Hin Hs]]]]]]]].
  - destruct data; try reflexivity. now elim (Hno fields).
  - simpl. now rewrite Hc.
  - simpl. rewrite Hc.
    destruct (mapM_raise patch_choice l ch Hin (patch_choice_unshaped _ Hs))
      as [e' ->].
    reflexivity.
Qed.

(** X5.  Nothing to patch.  When the decoded object has no [choices], or
    a list of well-shaped choices none of which holds reasoning, the body
    returned is the serialisation of the decoded object as it is: equal
    in value to the input, not necessarily in bytes. *)
Theorem patch_json_bytes_nothing_to_patch (body : bytes) (d : jdict) :
  loads body = Some (JObj d) ->
  Dict.get "choices" d = None \/
  (exists l, Dict.get "choices" d = Some (JArr l) /\
             forallb shaped_choice l = true /\ Forall no_reasoning l) ->
  _patch_reasoning_in_json_bytes body = dumps (JObj d).
Proof.
  intros Hl [Hc | [l [Hc [Hs Hclean]]]];
    unfold _patch_reasoning_in_json_bytes; rewrite Hl; simpl; rewrite Hc; auto.
  rewrite (mapM_map patch_choice (fun ch => ch)).
  - rewrite map_id. simpl. now rewrite set_same.
  - intros x Hx. rewrite patch_choice_shaped.
    + rewrite patched_choice_clean; auto.
      rewrite Forall_forall in Hclean. auto.
    + rewrite forallb_forall in Hs. auto.
Qed.

(** X6.  Normalising twice.  When the patched body decodes back to the
    value that was serialised, normalising it again returns the same
    bytes. *)
Theorem patch_json_bytes_twice (body : bytes) (data data' : json) :
  loads body = Some data ->
  patch_data data = Ok data' ->
  loads (dumps data') = Some data' ->
  _patch_reasoning_in_json_bytes (_patch_reasoning_in_json_bytes body) =
  _patch_reasoning_in_json_bytes body.
Proof.
  intros Hl Hp Hround.
  assert (Hone : _patch_reasoning_in_json_bytes body = dumps data')
    by (unfold _patch_reasoning_in_json_bytes; now rewrite Hl, Hp).
  rewrite Hone. unfold _patch_reasoning_in_json_bytes.
  now rewrite Hround, (@patch_data_again data data' Hp).
Qed.

End BodyFacts.

Lemma patch_json_bytes_shaped_witness :
  let body := Bytes.lit
    "{'id': 'c1', 'choices': [{'index': 0, 'message': {'role': 'assistant', 'reasoning_content': 'think', 'content': null}}, {'index': 1}]}" in
  @_patch_reasoning_in_json_bytes PyJson.lib body =
  Bytes.lit
    "{'id': 'c1', 'choices': [{'index': 0, 'message': {'role': 'assistant', 'content': 'think'}}, {'index': 1}]}".
Proof.
  intros body.
  pose (l := [JObj [("index", JInt 0);
                    ("message", JObj [("role", JStr "assistant");
                                      ("reasoning_content", JStr "think");
                                      ("content", JNull)])];
              JObj [("index", JInt 1)]]).
  pose (d := [("id", JStr "c1"); ("choices", JArr l)]).
  assert (Hloads : @loads PyJson.lib body = Some (JObj d))
    by (vm_compute; reflexivity).
  assert (Hchoices : Dict.get "choices" d = Some (JArr l)) by reflexivity.
  assert (Hshaped : forallb shaped_choice l = true) by reflexivity.
  destruct (@patch_json_bytes_shaped PyJson.lib body d l Hloads Hchoices Hshaped)
    as [Hbody _].
  rewrite Hbody. vm_compute. reflexivity.
Defined.

Lemma patch_json_bytes_fallback_witness :
  let body := Bytes.lit
    "{'choices': [{'message': {'reasoning_content': 'x'}}, 'oops']}" in
  @_patch_reasoning_in_json_bytes PyJson.lib body = body.
Proof.
  intros body.
  apply (@patch_json_bytes_fallback PyJson.lib body
           (JObj [("choices",
                   JArr [JObj [("message", JObj [("reasoning_content", JStr "x")])];
                         JStr "oops"])])).
  - vm_compute. reflexivity.
  - right. right.
    exists [("choices",
             JArr [JObj [("message", JObj [("reasoning_content", JStr "x")])];
                   JStr "oops"])].
    exists [JObj [("message", JObj [("reasoning_content", JStr "x")])]; JStr "oops"].
    exists (JStr "oops").
    repeat split; try reflexivity. right. left. reflexivity.
Defined.

Lemma patch_json_bytes_nothing_to_patch_witness :
  @_patch_reasoning_in_json_bytes PyJson.lib
    (Bytes.lit "{'object':'list',  'data':[ ]}") =
  Bytes.lit "{'object': 'list', 'data': []}".
Proof.
  rewrite (@patch_json_bytes_nothing_to_patch PyJson.lib
             (Bytes.lit "{'object':'list',  'data':[ ]}")
             [("object", JStr "list"); ("data", JArr [])]).
  - vm_compute. reflexivity.
  - vm_compute. reflexivity.
  - left. reflexivity.
Defined.

Lemma patch_json_bytes_twice_witness :
  let body := Bytes.lit
    "{'choices':[{'message':{'reasoning_content':'think','content':'answer'}}]}" in
  @_patch_reasoning_in_json_bytes PyJson.lib
    (@_patch_reasoning_in_json_bytes PyJson.lib body) =
  Bytes.lit "{'choices': [{'message': {'content': 'answer'}}]}".
Proof.
  intros body.
  rewrite (@patch_json_bytes_twice PyJson.lib body
             (JObj [("choices",
                     JArr [JObj [("message",
                                  JObj [("reasoning_content", JStr "think");
                                        ("content", JStr "answer")])]])])
             (JObj [("choices",
                     JArr [JObj [("message", JObj [("content", JStr "answer")])]])]));
    vm_compute; reflexivity.
Defined.

(** ** More on SSE events *)

Lemma patch_delta_obj_ok (d : jdict) :
  exists d' : jdict,
    patch_delta (JObj d) = Ok (JObj d') /\
    Dict.get "reasoning_content" d' = None.
Proof.
  simpl. destruct (Dict.get "reasoning_content" d) as [rc|] eqn:Hrc.
  - destruct (Dict.get "content" d) as [c|]; [destruct (in_none_or_empty c)|];
      eexists; split; try reflexivity.
    + rewrite DictFacts.get_set_other by discriminate. apply DictFacts.get_del_same.
    + apply DictFacts.get_del_same.
    + rewrite DictFacts.get_set_other by discriminate. apply DictFacts.get_del_same.
  - eexists; split; [reflexivity | exact Hrc].
Qed.

Lemma patch_delta_again (delta delta' : json) :
  patch_delta delta = Ok delta' -> patch_delta delta' = Ok delta'.
Proof.
  intros H. pose proof H as H0.
  destruct delta as [| | | | s | l | d]; try discriminate.
  - simpl in H. destruct (Str.contains "reasoning_content" s); [discriminate|].
    injection H as <-. exact H0.
  - simpl in H. destruct (existsb (is_str "reasoning_content") l).
    + destruct (existsb (is_str "content") l); discriminate.
    + injection H as <-. exact H0.
  - destruct (patch_delta_obj_ok d) as [d' [Hd' Hgone]].
    rewrite Hd' in H. injection H as <-. simpl. now rewrite Hgone.
Qed.

Lemma get_moved (d : jdict) (rc : json) (k : string) :
  Dict.get k (Dict.set "content" rc (Dict.del "reasoning_content" d)) =
  if String.eqb "reasoning_content" k then None
  else if String.eqb "content" k then Some rc
  else Dict.get k d.
Proof.
  destruct (String.eqb_spec "reasoning_content" k) as [<- | Hk1].
  - rewrite DictFacts.get_set_other by discriminate. apply DictFacts.get_del_same.
  - destruct (String.eqb_spec "content" k) as [<- | Hk2].
    + apply DictFacts.get_set_same.
    + rewrite DictFacts.get_set_other by assumption.
      now apply DictFacts.get_del_other.
Qed.

Lemma get_dropped (d : jdict) (k : string) :
  Dict.get k (Dict.del "reasoning_content" d) =
  if String.eqb "reasoning_content" k then None else Dict.get k d.
Proof.
  destruct (String.eqb_spec "reasoning_content" k) as [<- | Hk1].
  - apply DictFacts.get_del_same.
  - now apply DictFacts.get_del_other.
Qed.

(** X7.  What a patched delta holds under each key.  A delta that is an
    object is always patched without an exception.  Without a
    [reasoning_content] key it is left as it is.  With one, whatever its
    value, also null, the key is gone, [content] holds that value when
    it was absent, null or the empty string and its own value when not,
    and every other key holds what it held. *)
Theorem patch_delta_lookup (d : jdict) :
  exists d' : jdict,
    patch_delta (JObj d) = Ok (JObj d') /\
    forall k : string,
      Dict.get k d' =
      match Dict.get "reasoning_content" d with
      | None => Dict.get k d
      | Some rc =>
          if String.eqb "reasoning_content" k then None
          else if String.eqb "content" k then
            match Dict.get "content" d with
            | None => Some rc
            | Some c => if in_none_or_empty c then Some rc else Some c
            end
          else Dict.get k d
      end.
Proof.
  cbn [patch_delta].
  destruct (Dict.get "reasoning_content" d) as [rc|] eqn:Hrc;
    [|eexists; split; [reflexivity | intros k; reflexivity]].
  destruct (Dict.get "content" d) as [c|] eqn:Hc;
    [destruct (in_none_or_empty c) eqn:Hempty|];
    eexists; (split; [reflexivity|]); intros k.
  - apply get_moved.
  - rewrite get_dropped.
    destruct (String.eqb "reasoning_content" k); auto.
    destruct (String.eqb_spec "content" k) as [<- | Hk2]; auto.
  - apply get_moved.
Qed.

Lemma patch_event_obj_unfold (o c : jdict) (rest : list json) (delta' : json) :
  Dict.get "choices" o = Some (JArr (JObj c :: rest)) ->
  patch_delta (Dict.get_default "delta" (JObj []) c) = Ok delta' ->
  patch_event_obj (JObj o) =
  Ok (JObj (Dict.set "choices"
              (JArr (JObj (Dict.set "delta" delta' c) :: rest)) o)).
Proof.
  intros Ho Hd. unfold patch_event_obj, py_get.
  unfold Dict.get_default at 1. rewrite Ho. simpl. rewrite Hd. simpl.
  now rewrite Ho.
Qed.

(** What [patch_event_obj] got through when it returns. *)
Lemma patch_event_obj_inv (obj obj' : json) :
  patch_event_obj obj = Ok obj' ->
  exists (o c : jdict) (rest : list json) (delta' : json),
    obj = JObj o /\
    Dict.get "choices" o = Some (JArr (JObj c :: rest)) /\
    patch_delta (Dict.get_default "delta" (JObj []) c) = Ok delta' /\
    obj' = JObj (Dict.set "choices"
                   (JArr (JObj (Dict.set "delta" delta' c) :: rest)) o).
Proof.
  intros H. destruct obj as [| | | | | |o]; try discriminate.
  unfold patch_event_obj, py_get in H. unfold Dict.get_default at 1 in H.
  destruct (Dict.get "choices" o) as [ch|] eqn:Ho.
  - destruct ch as [| | | | s | l |]; try discriminate.
    + destruct s; discriminate.
    + destruct l as [|first rest]; [discriminate|].
      destruct first as [| | | | | |c]; try discriminate.
      simpl in H.
      destruct (patch_delta (Dict.get_default "delta" (JObj []) c))
        as [delta'|] eqn:Hd; [|discriminate].
      simpl in H. rewrite Ho in H. simpl in H. injection H as <-.
      exists o, c, rest, delta'. auto.
  - simpl in H. rewrite Ho in H. discriminate.
Qed.

(** X8.  Only the delta of the first choice.  For an event object whose
    [choices] starts with an object whose [delta] is an object or is
    missing, the patched event differs from the event in the [delta] of
    the first choice only: the other keys of the event, the other choices
    and the other keys of the first choice are as they were.  A first
    choice without [delta] gets an empty one. *)
Theorem patch_event_obj_first_delta (o c : jdict) (rest : list json) :
  Dict.get "choices" o = Some (JArr (JObj c :: rest)) ->
  Dict.get "delta" c = None \/ (exists d, Dict.get "delta" c = Some (JObj d)) ->
  exists (o' c' : jdict) (delta' : json),
    patch_event_obj (JObj o) = Ok (JObj o') /\
    patch_delta (Dict.get_default "delta" (JObj []) c) = Ok delta' /\
    Dict.get "choices" o' = Some (JArr (JObj c' :: rest)) /\
    (forall k, k <> "choices" -> Dict.get k o' = Dict.get k o) /\
    Dict.get "delta" c' = Some delta' /\
    (forall k, k <> "delta" -> Dict.get k c' = Dict.get k c) /\
    (Dict.get "delta" c = None -> delta' = JObj []).
Proof.
  intros Ho Hdelta.
  assert (Hok : exists d', patch_delta (Dict.get_default "delta" (JObj []) c)
                           = Ok (JObj d') /\
                           (Dict.get "delta" c = None -> d' = [])).
  { unfold Dict.get_default. destruct Hdelta as [Hn | [d Hd]].
    - rewrite Hn. exists []. split; auto.
    - rewrite Hd. destruct (patch_delta_obj_ok d) as [d' [Hd' _]].
      exists d'. split; auto. congruence. }
  destruct Hok as [d' [Hpatch Hempty]].
  exists (Dict.set "choices" (JArr (JObj (Dict.set "delta" (JObj d') c) :: rest)) o),
    (Dict.set "delta" (JObj d') c), (JObj d').
  repeat split.
  - exact (@patch_event_obj_unfold o c rest (JObj d') Ho Hpatch).
  - exact Hpatch.
  - apply DictFacts.get_set_same.
  - intros k Hk. apply DictFacts.get_set_other. congruence.
  - apply DictFacts.get_set_same.
  - intros k Hk. apply DictFacts.get_set_other. congruence.
  - intros Hn. now rewrite (Hempty Hn).
Qed.

Lemma patch_event_obj_first_delta_witness :
  exists o' c' : jdict,
    patch_event_obj
      (JObj [("id", JStr "x"); ("usage", JNull);
             ("choices", JArr [JObj [("index", JInt 0)]; JObj [("index", JInt 1)]])]) =
      Ok (JObj o') /\
    Dict.get "usage" o' = Some JNull /\
    Dict.get "choices" o' = Some (JArr [JObj c'; JObj [("index", JInt 1)]]) /\
    Dict.get "index" c' = Some (JInt 0) /\
    Dict.get "delta" c' = Some (JObj []).
Proof.
  destruct (@patch_event_obj_first_delta
              [("id", JStr "x"); ("usage", JNull);
               ("choices", JArr [JObj [("index", JInt 0)]; JObj [("index", JInt 1)]])]
              [("index", JInt 0)] [JObj [("index", JInt 1)]])
    as (o' & c' & delta' & Hpatch & _ & Hchoices & Hkeys & Hdelta & Hrest & Hempty).
  - reflexivity.
  - left. reflexivity.
  - exists o', c'. split; [exact Hpatch|].
    split; [rewrite Hkeys by discriminate; reflexivity|].
    split; [exact Hchoices|].
    split; [rewrite Hrest by discriminate; reflexivity|].
    rewrite Hdelta. f_equal. apply Hempty. reflexivity.
Defined.

(** X9.  Patching a patched event.  An event object that
    [patch_event_obj] has returned is returned unchanged when it is
    patched again. *)
Theorem patch_event_obj_again (obj obj' : json) :
  patch_event_obj obj = Ok obj' -> patch_event_obj obj' = Ok obj'.
Proof.
  intros H.
  destruct (@patch_event_obj_inv obj obj' H)
    as (o & c & rest & delta' & -> & Ho & Hd & ->).
  rewrite (@patch_event_obj_unfold
             (Dict.set "choices" (JArr (JObj (Dict.set "delta" delta' c) :: rest)) o)
             (Dict.set "delta" delta' c) rest delta').
  - now rewrite !set_set.
  - apply DictFacts.get_set_same.
  - unfold Dict.get_default. rewrite DictFacts.get_set_same.
    exact (@patch_delta_again _ _ Hd).
Qed.

Lemma patch_event_obj_again_witness :
  patch_event_obj
    (JObj [("choices",
            JArr [JObj [("delta", JObj [("content", JStr "hi")])]])]) =
  Ok (JObj [("choices",
            JArr [JObj [("delta", JObj [("content", JStr "hi")])]])]).
Proof.
  apply (@patch_event_obj_again
           (JObj [("choices",
                   JArr [JObj [("delta",
                               JObj [("reasoning_content", JStr "hi")])]])])).
  reflexivity.
Defined.

(** ** More on the splitter *)

Lemma no_first_choice_raises (obj : json) :
  no_first_choice obj = true -> exists e, patch_event_obj obj = Raise e.
Proof.
  destruct obj as [| | | | | |o]; simpl;
    try (intros _; exists AttributeError; reflexivity).
  unfold patch_event_obj, py_get. unfold Dict.get_default at 1.
  destruct (Dict.get "choices" o) as [ch|] eqn:Ho.
  - destruct ch as [| | | | |l|]; try discriminate; simpl; eauto.
    destruct l; [simpl; eauto | discriminate].
  - intros _. simpl. rewrite Ho. eauto.
Qed.

Section SplitterFacts.
Context {py : PyLib}.

(** X10.  The fallback, in general.  When an event of a chunk decodes to
    something that is not an object, or to an object without [choices],
    or with an empty or null [choices], the loop stops there: the yields
    of the events before it are followed by the whole chunk as received,
    and nothing else.  So the frames before that event are sent twice
    and the frames after it are sent unpatched. *)
Theorem stream_fallback_on_missing_choice
        (chunk event : bytes) (pre post outs : list bytes) (obj : json) :
  Bytes.split DELIM chunk = pre ++ event :: post ->
  mapM patch_event pre = Ok outs ->
  Bytes.startswith DATA event = true ->
  Bytes.eqb (Bytes.strip (skipn 5 event)) DONE = false ->
  loads (Bytes.strip (skipn 5 event)) = Some obj ->
  no_first_choice obj = true ->
  _stream_patch [chunk] = outs ++ [chunk].
Proof.
  intros Hsplit Hpre Hdata Hnot_done Hloads Hnone.
  destruct (no_first_choice_raises obj Hnone) as [e He].
  unfold _stream_patch. simpl. rewrite app_nil_r.
  unfold patch_chunk. rewrite Hsplit.
  apply (@patch_events_raise py chunk pre post event outs e Hpre).
  rewrite (@patch_event_decoded py event obj Hdata Hnot_done Hloads).
  now rewrite He.
Qed.

Lemma patch_events_length (chunk : bytes) (events : list bytes) :
  List.length (patch_events chunk events) <= List.length events /\
  (events <> [] -> patch_events chunk events <> []).
Proof.
  induction events as [|ev evs [IHlen IHne]]; simpl.
  - split; [lia | congruence].
  - destruct (patch_event ev); simpl; split; try lia; discriminate.
Qed.

(** X11.  No chunk is swallowed.  A chunk gives at least one output
    chunk and at most as many as it has events, so a stream gives at
    least as many output chunks as it has input chunks. *)
Theorem stream_patch_yields (gen : list bytes) :
  (forall chunk,
      patch_chunk chunk <> [] /\
      List.length (patch_chunk chunk) <= List.length (Bytes.split DELIM chunk)) /\
  List.length gen <= List.length (_stream_patch gen).
Proof.
  assert (Hchunk : forall chunk,
      patch_chunk chunk <> [] /\
      List.length (patch_chunk chunk) <= List.length (Bytes.split DELIM chunk)).
  { intros chunk. unfold patch_chunk.
    destruct (patch_events_length chunk (Bytes.split DELIM chunk)) as [Hlen Hne].
    split; auto. apply Hne. unfold Bytes.split.
    destruct (BytesFacts.split_fuel_cons (List.length chunk) DELIM chunk)
      as [p [rest ->]].
    discriminate. }
  split; [exact Hchunk|].
  unfold _stream_patch. induction gen as [|chunk gen IH]; simpl; [lia|].
  rewrite length_app.
  destruct (Hchunk chunk) as [Hne _].
  destruct (patch_chunk chunk); [congruence | simpl; lia].
Qed.

(** X12.  Frames that are not [data:] frames.  A stream whose chunks hold
    no event that starts with [data:] (comments, keep-alives, [event:]
    lines) comes out with its bytes in order and one more delimiter after
    every chunk. *)
Theorem stream_patch_without_data (gen : list bytes) :
  Forall (fun chunk =>
            Forall (fun event => Bytes.startswith DATA event = false)
                   (Bytes.split DELIM chunk)) gen ->
  List.concat (_stream_patch gen) =
  List.concat (map (fun chunk => chunk ++ DELIM) gen).
Proof.
  unfold _stream_patch.
  induction 1 as [|chunk gen Hchunk Hgen IH]; simpl; auto.
  rewrite concat_app, IH.
  now rewrite (@patch_chunk_passthrough py chunk Hchunk).
Qed.

End SplitterFacts.

Lemma stream_fallback_on_missing_choice_witness :
  let chunk := Bytes.lit
    "data: {'choices': [{'delta': {'content': 'a'}}]}~~data: {'error': 'overloaded'}~~data: {'choices': [{'delta': {'reasoning_content': 'b'}}]}~~" in
  @_stream_patch PyJson.lib [chunk] =
  [Bytes.lit "data: {'choices': [{'delta': {'content': 'a'}}]}~~"; chunk].
Proof.
  intros chunk.
  apply (@stream_fallback_on_missing_choice PyJson.lib chunk
           (Bytes.lit "data: {'error': 'overloaded'}")
           [Bytes.lit "data: {'choices': [{'delta': {'content': 'a'}}]}"]
           [Bytes.lit "data: {'choices': [{'delta': {'reasoning_content': 'b'}}]}"; []]
           [Bytes.lit "data: {'choices': [{'delta': {'content': 'a'}}]}~~"]
           (JObj [("error", JStr "overloaded")]));
    vm_compute; reflexivity.
Defined.

Lemma stream_patch_without_data_witness :
  List.concat (@_stream_patch PyJson.lib
                 [Bytes.lit ": keep-alive~~"; Bytes.lit "event: ping~id: 7~~"]) =
  Bytes.lit ": keep-alive~~~~event: ping~id: 7~~~~".
Proof.
  rewrite (@stream_patch_without_data PyJson.lib).
  - vm_compute. reflexivity.
  - repeat constructor.
Defined.

(** ** More on headers *)

Lemma in_set (V : Type) (k : string) (v : V) (d : Dict.t V) (kv : string * V) :
  In kv (Dict.set k v d) -> kv = (k, v) \/ In kv d.
Proof.
  induction d as [|[k0 v0] d IH]; simpl.
  - intros [<- | []]. auto.
  - destruct (String.eqb k0 k); simpl; intros [<- | H]; auto.
    destruct (IH H); auto.
Qed.

Lemma in_of_items (V : Type) (items : list (string * V)) (kv : string * V) :
  In kv (Dict.of_items items) -> In kv items.
Proof.
  unfold Dict.of_items.
  assert (Hgen : forall acc,
             In kv (fold_left (fun d x => Dict.set (fst x) (snd x) d) items acc) ->
             In kv acc \/ In kv items).
  { induction items as [|[k v] items IH]; simpl; intros acc H; auto.
    destruct (IH _ H) as [Hacc | Hitems]; auto.
    destruct (in_set _ _ _ _ Hacc) as [-> | Hin]; auto. }
  intros H. destruct (Hgen [] H) as [[] | Hin]. exact Hin.
Qed.

Lemma get_of_items (V : Type) (items : list (string * V)) (k : string) :
  Dict.get k (Dict.of_items items) = Dict.get k (rev items).
Proof.
  unfold Dict.of_items.
  assert (Hgen : forall acc,
             Dict.get k (fold_left (fun d x => Dict.set (fst x) (snd x) d) items acc) =
             match Dict.get k (rev items) with
             | Some v => Some v
             | None => Dict.get k acc
             end).
  { induction items as [|[k0 v0] items IH]; simpl; intros acc; auto.
    rewrite IH, get_app. destruct (Dict.get k (rev items)); auto.
    simpl. destruct (String.eqb_spec k0 k) as [-> | Hne].
    - apply DictFacts.get_set_same.
    - now apply DictFacts.get_set_other. }
  rewrite Hgen. now destruct (Dict.get k (rev items)).
Qed.

Lemma get_filter_by_key (V : Type) (g : string -> bool) (l : list (string * V))
      (k : string) :
  Dict.get k (filter (fun kv => g (fst kv)) l) =
  if g k then Dict.get k l else None.
Proof.
  induction l as [|[k0 v0] l IH]; simpl.
  - now destruct (g k).
  - destruct (g k0) eqn:Eg; simpl.
    + destruct (String.eqb_spec k0 k) as [-> | Hne]; [now rewrite Eg | exact IH].
    + rewrite IH. destruct (String.eqb_spec k0 k) as [-> | Hne]; auto.
      now rewrite Eg.
Qed.

(** What [filter_headers] holds under a name: nothing when the name, in
    lower case, is excluded, and otherwise the value of the last item of
    that name. *)
Lemma get_filter_headers (excluded : list string) (items : list (string * string))
      (k : string) :
  Dict.get k (filter_headers excluded items) =
  if existsb (String.eqb (Str.lower k)) excluded then None
  else Dict.get k (rev items).
Proof.
  unfold filter_headers. rewrite get_of_items, <- filter_rev.
  unfold not_excluded.
  rewrite (get_filter_by_key
             (fun name => negb (existsb (String.eqb (Str.lower name)) excluded))).
  now destruct (existsb (String.eqb (Str.lower k)) excluded).
Qed.

Lemma in_filter_headers (excluded : list string) (items : list (string * string))
      (kv : string * string) :
  In kv (filter_headers excluded items) ->
  In kv items /\ existsb (String.eqb (Str.lower (fst kv))) excluded = false.
Proof.
  intros H. apply in_of_items in H. apply filter_In in H.
  destruct H as [Hin Hkeep]. split; auto.
  unfold not_excluded in Hkeep. now apply negb_true_iff in Hkeep.
Qed.

Lemma filter_headers_distinct (excluded : list string)
      (items : list (string * string)) :
  NoDup (Dict.keys items) ->
  filter_headers excluded items = filter (not_excluded excluded) items.
Proof.
  intros Hnd. unfold filter_headers. apply of_items_distinct.
  unfold Dict.keys in *.
  induction items as [|[k v] items IH]; simpl; [constructor|].
  inversion Hnd as [|? ? Hnin Hnd']; subst.
  destruct (not_excluded excluded (k, v)); simpl; auto.
  constructor; auto.
  intros Hin. apply Hnin. apply in_map_iff in Hin.
  destruct Hin as [kv [Hk Hin]]. apply filter_In in Hin.
  apply in_map_iff. exists kv. tauto.
Qed.

Section NormaliserFacts.
Context {py : PyLib}.

Lemma handled_headers (response : Response) (flag : bool) (sr : StreamingResponse) :
  _handle_backend_response response flag = Returns sr ->
  sr_headers sr = filter_headers response_excluded (resp_headers response) /\
  sr_status_code sr = resp_status_code response.
Proof.
  unfold _handle_backend_response.
  destruct flag.
  - destruct (negb (Z.eqb (resp_status_code response) 200)); [discriminate|].
    intros H. injection H as <-. auto.
  - destruct (Z.leb 400 (resp_status_code response));
      intros H; injection H as <-; auto.
Qed.

(** X13.  Response headers.  Whenever the normaliser returns a response,
    on either path, every header of it is a header of the backend
    response, and none is [content-length], [transfer-encoding],
    [connection] or [content-encoding] in any letter case; the headers of
    the backend response with other names are all there, in their
    order. *)
Theorem response_headers_filtered (response : Response) (flag : bool)
        (sr : StreamingResponse) :
  _handle_backend_response response flag = Returns sr ->
  NoDup (Dict.keys (resp_headers response)) ->
  (forall k v,
      In (k, v) (sr_headers sr) ->
      In (k, v) (resp_headers response) /\
      ~ In (Str.lower k) response_excluded) /\
  sr_headers sr =
    filter (fun kv => negb (existsb (String.eqb (Str.lower (fst kv)))
                                    response_excluded))
           (resp_headers response).
Proof.
  intros Hret Hnd. destruct (handled_headers _ _ Hret) as [Hh _].
  rewrite Hh. split.
  - intros k v Hin. apply in_filter_headers in Hin. destruct Hin as [Hin Hex].
    split; auto. cbn [fst] in Hex. intros Hbad.
    assert (Htrue : existsb (String.eqb (Str.lower k)) response_excluded = true).
    { apply existsb_exists. exists (Str.lower k). split; auto.
      apply String.eqb_refl. }
    congruence.
  - now apply filter_headers_distinct.
Qed.

End NormaliserFacts.

Lemma response_headers_filtered_witness :
  let response := {| resp_status_code := 200;
                     resp_headers := [("content-type", "application/json");
                                      ("Content-Length", "42");
                                      ("content-encoding", "gzip");
                                      ("x-request-id", "abc")];
                     resp_chunks := [Bytes.lit "{}"] |} in
  exists sr,
    @_handle_backend_response PyJson.lib response false = Returns sr /\
    sr_headers sr = [("content-type", "application/json"); ("x-request-id", "abc")].
Proof.
  intros response.
  destruct (@_handle_backend_response PyJson.lib response false) as [sr|e] eqn:Hret;
    [|vm_compute in Hret; discriminate].
  exists sr. split; [reflexivity|].
  destruct (@response_headers_filtered PyJson.lib response false sr Hret)
    as [_ Hkept].
  - repeat constructor; simpl; intuition discriminate.
  - rewrite Hkept. reflexivity.
Defined.

Lemma generic_outbound_spec_witness :
  let request := {| req_method := "DELETE";
                    req_url_path := "/v1/files/f1";
                    req_url_query := EmptyString;
                    req_headers := [("host", "gateway:8000");
                                    ("accept", "Text/Event-Stream");
                                    ("content-length", "2");
                                    ("authorization", "Bearer k")];
                    req_body := Bytes.lit "{}" |} in
  let out := generic_outbound default_settings request in
  out_url out = "http://localhost:10001/v1/files/f1" /\
  out_method out = "DELETE" /\
  out_body out = Bytes.lit "{}" /\
  expect_stream request = true /\
  out_headers out =
    Some [("accept", "Text/Event-Stream"); ("authorization", "Bearer k")].
Proof.
  intros request out.
  destruct (@generic_outbound_spec default_settings request)
    as (Hurl & Hmethod & Hbody & Hmode & Hheaders).
  split; [exact Hurl|]. split; [exact Hmethod|]. split; [exact Hbody|].
  split.
  - rewrite Hmode. vm_compute. reflexivity.
  - apply Hheaders. repeat constructor; simpl; intuition discriminate.
Defined.

(** ** More on the forwarders *)

(** X18.  The outbound headers of the generic path, name by name, for
    every inbound request.  Under [host], [content-length],
    [transfer-encoding] and [connection], in any letter case, there is
    nothing; under any other name there is the value of the last inbound
    header line of that name. *)
Theorem generic_outbound_header_lookup (settings : Settings) (request : Request)
        (k : string) :
  exists h : Dict.t string,
    out_headers (generic_outbound settings request) = Some h /\
    Dict.get k h =
    if existsb (String.eqb (Str.lower k)) request_excluded then None
    else Dict.get k (rev (req_headers request)).
Proof.
  eexists. split; [reflexivity|]. apply get_filter_headers.
Qed.

Lemma get_chat_payload_stream (settings : Settings)
      (r : Schemas.ChatCompletionRequest) :
  Schemas.valid r ->
  Dict.get "stream" (chat_payload settings r) = Schemas.stream r.
Proof.
  intros Hvalid.
  destruct (get_model_dump_declared Hvalid)
    as (_ & _ & _ & _ & Hstream & _).
  cbv zeta in Hstream. rewrite <- Hstream. unfold chat_payload.
  rewrite !get_setdefault_other by discriminate.
  apply DictFacts.get_set_other. discriminate.
Qed.

(** X14.  The stream flag of the chat path.  The request is sent in
    streaming mode exactly when the caller set [stream] to a true value;
    a caller who left [stream] out, or sent false or null, gets the
    buffered mode. *)
Theorem chat_stream_flag (settings : Settings) (r : Schemas.ChatCompletionRequest) :
  Schemas.valid r ->
  out_stream (chat_outbound settings r) =
  match Schemas.stream r with
  | Some v => truthy v
  | None => false
  end.
Proof.
  intros Hvalid. unfold chat_outbound. cbn [out_stream].
  unfold chat_is_stream. now rewrite get_chat_payload_stream.
Qed.

Lemma chat_stream_flag_witness :
  let r := {| Schemas.model := "qwen3";
              Schemas.messages := [];
              Schemas.temperature := None;
              Schemas.top_p := None;
              Schemas.top_k := None;
              Schemas.n := None;
              Schemas.stream := Some JNull;
              Schemas.stop := None;
              Schemas.max_tokens := None;
              Schemas.presence_penalty := None;
              Schemas.frequency_penalty := None;
              Schemas.logit_bias := None;
              Schemas.user := None;
              Schemas.model_extra := [] |} in
  out_stream (chat_outbound default_settings r) = false.
Proof.
  intros r.
  apply (@chat_stream_flag default_settings r).
  split.
  - constructor.
  - intros k _. reflexivity.
Defined.

Section EndToEnd.
Context {py : PyLib}.
Variable settings : Settings.
Variable backend : Backend.

Lemma patch_json_bytes_of_shaped (body : bytes) (d : jdict) (l : list json) :
  loads body = Some (JObj d) ->
  Dict.get "choices" d = Some (JArr l) ->
  forallb shaped_choice l = true ->
  _patch_reasoning_in_json_bytes body =
  dumps (JObj (Dict.set "choices" (JArr (map patched_choice l)) d)).
Proof.
  intros Hl Hc Hs.
  unfold _patch_reasoning_in_json_bytes. rewrite Hl. simpl. rewrite Hc.
  rewrite (@mapM_map json json patch_choice patched_choice l); [reflexivity|].
  intros x Hx. apply patch_choice_shaped.
  rewrite forallb_forall in Hs. auto.
Qed.

(** X15.  A buffered chat completion, end to end.  The caller did not ask
    for a stream, the backend answers the one request with a status
    below 400 and a body that decodes to an object with a list of
    well-shaped choices: the forwarder returns a response with the
    backend's status whose body is one chunk, the serialisation of that
    object with the message of every choice patched. *)
Theorem chat_buffered_end_to_end (r : Schemas.ChatCompletionRequest)
        (resp : Response) (d : jdict) (l : list json) :
  Schemas.valid r ->
  match Schemas.stream r with Some v => truthy v | None => false end = false ->
  backend (chat_outbound settings r) = inr resp ->
  (resp_status_code resp < 400)%Z ->
  loads (aread resp) = Some (JObj d) ->
  Dict.get "choices" d = Some (JArr l) ->
  forallb shaped_choice l = true ->
  exists sr : StreamingResponse,
    forward_chat_completion_request_to_vllm settings backend r [] =
      (Returns sr, [chat_outbound settings r]) /\
    sr_status_code sr = resp_status_code resp /\
    sr_body sr =
      [dumps (JObj (Dict.set "choices" (JArr (map patched_choice l)) d))].
Proof.
  intros Hvalid Hstream Hback Hstatus Hloads Hchoices Hshaped.
  unfold forward_chat_completion_request_to_vllm, try_send, send.
  rewrite Hback.
  assert (Hflag : out_stream (chat_outbound settings r) = false).
  { unfold chat_outbound. cbn [out_stream]. unfold chat_is_stream.
    now rewrite get_chat_payload_stream. }
  rewrite Hflag. unfold _handle_backend_response.
  apply Z.leb_gt in Hstatus. rewrite Hstatus.
  rewrite (patch_json_bytes_of_shaped _ Hloads Hchoices Hshaped).
  eexists. split; [reflexivity|]. split; reflexivity.
Qed.

End EndToEnd.

Lemma chat_buffered_end_to_end_witness :
  let r := {| Schemas.model := "qwen3";
              Schemas.messages := [{| Schemas.role := "user"; Schemas.content := "hi" |}];
              Schemas.temperature := None;
              Schemas.top_p := None;
              Schemas.top_k := None;
              Schemas.n := None;
              Schemas.stream := None;
              Schemas.stop := None;
              Schemas.max_tokens := None;
              Schemas.presence_penalty := None;
              Schemas.frequency_penalty := None;
              Schemas.logit_bias := None;
              Schemas.user := None;
              Schemas.model_extra := [] |} in
  let resp := {| resp_status_code := 200;
                 resp_headers := [("content-type", "application/json")];
                 resp_chunks :=
                   [Bytes.lit "{'choices':[{'message':{'role':'assistant',";
                    Bytes.lit "'reasoning_content':'hm','content':''}}]}"] |} in
  exists sr : StreamingResponse,
    @forward_chat_completion_request_to_vllm PyJson.lib default_settings
      (fun _ => inr resp) r [] =
      (Returns sr, [chat_outbound default_settings r]) /\
    sr_status_code sr = 200%Z /\
    sr_body sr =
      [Bytes.lit "{'choices': [{'message': {'role': 'assistant', 'content': 'hm'}}]}"].
Proof.
  intros r resp.
  pose (l := [JObj [("message", JObj [("role", JStr "assistant");
                                      ("reasoning_content", JStr "hm");
                                      ("content", JStr EmptyString)])]]).
  pose (d := [("choices", JArr l)]).
  assert (Hvalid : Schemas.valid r).
  { split; [constructor | intros k _; reflexivity]. }
  assert (Hloads : @loads PyJson.lib (aread resp) = Some (JObj d))
    by (vm_compute; reflexivity).
  destruct (@chat_buffered_end_to_end PyJson.lib default_settings
              (fun _ => inr resp) r resp d l Hvalid eq_refl eq_refl eq_refl
              Hloads eq_refl eq_refl)
    as (sr & Hrun & Hstatus & Hbody).
  exists sr. split; [exact Hrun|]. split; [exact Hstatus|].
  rewrite Hbody. vm_compute. reflexivity.
Defined.


(** ** The shared HTTP client *)

Section LifecycleFacts.
Variable settings : Settings.

Lemma get_http_client_ok (w : Process) :
  lifecycle_ok w ->
  lifecycle_ok (snd (get_http_client settings w)) /\
  _http_client (snd (get_http_client settings w)) =
    Some (fst (get_http_client settings w)).
Proof.
  unfold lifecycle_ok, get_http_client.
  intros (Hnd & Hbound & Hlive).
  destruct (_http_client w) as [client|] eqn:Hc; simpl.
  - rewrite Hc. auto.
  - repeat split; auto; try lia.
    + intros i Hi. specialize (Hbound i Hi). lia.
    + intros Hin. specialize (Hbound _ Hin). lia.
Qed.

Lemma close_http_client_ok (w : Process) :
  lifecycle_ok w -> lifecycle_ok (close_http_client w).
Proof.
  unfold lifecycle_ok, close_http_client.
  intros (Hnd & Hbound & Hlive).
  destruct (_http_client w) as [client|] eqn:Hc; simpl.
  - destruct Hlive as (Hid & Hnin & Hcount). repeat split.
    + now constructor.
    + intros i [<- | Hi]; auto.
    + exact Hcount.
  - rewrite Hc. auto.
Qed.

Lemma run_calls_ok (calls : list client_call) (w : Process) :
  lifecycle_ok w -> lifecycle_ok (snd (run_calls settings calls w)).
Proof.
  revert w. induction calls as [|call calls IH]; intros w Hok; simpl; auto.
  destruct call.
  - destruct (get_http_client settings w) as [client w1] eqn:Hget.
    specialize (IH w1).
    destruct (run_calls settings calls w1) as [clients w2]. simpl in *.
    apply IH. destruct (get_http_client_ok Hok) as [Hok1 _].
    now rewrite Hget in Hok1.
  - apply IH. now apply close_http_client_ok.
Qed.

Lemma startup_ok : lifecycle_ok startup.
Proof.
  unfold lifecycle_ok, startup. simpl.
  repeat split; [constructor | intros i []].
Qed.

(** X20.  The client in use is never a closed one.  After any run of
    [get_http_client] and [close_http_client] calls from start-up, no
    client has been closed twice, every client ever constructed has been
    closed except the current one, and the client the next
    [get_http_client] call returns has not been closed. *)
Theorem client_lifecycle (calls : list client_call) :
  let w := snd (run_calls settings calls startup) in
  lifecycle_ok w /\
  ~ In (client_id (fst (get_http_client settings w)))
       (aclosed (snd (get_http_client settings w))).
Proof.
  intros w.
  assert (Hok : lifecycle_ok w) by (apply run_calls_ok, startup_ok).
  split; [exact Hok|].
  destruct (get_http_client_ok Hok) as [(_ & _ & Hlive) Hcur].
  rewrite Hcur in Hlive. tauto.
Qed.

Lemma get_http_client_again (w : Process) :
  get_http_client settings (snd (get_http_client settings w)) =
  (fst (get_http_client settings w), snd (get_http_client settings w)).
Proof.
  unfold get_http_client.
  destruct (_http_client w) as [client|] eqn:Hc; simpl; [now rewrite Hc|].
  reflexivity.
Qed.

(** X21.  One client for all.  From any state, any number of
    [get_http_client] calls in a row return the same client and leave
    the state the first of them left; at most one client is constructed,
    and none when there was one already. *)
Theorem gets_share_one_client (w : Process) (k : nat) :
  run_calls settings (repeat Get (S k)) w =
    (repeat (fst (get_http_client settings w)) (S k),
     snd (get_http_client settings w)) /\
  constructed (snd (get_http_client settings w)) =
    match _http_client w with
    | Some _ => constructed w
    | None => S (constructed w)
    end.
Proof.
  split.
  - revert w. induction k as [|k IH]; intros w.
    + simpl. now destruct (get_http_client settings w).
    + change (repeat Get (S (S k))) with (Get :: repeat Get (S k)).
      cbn [run_calls].
      destruct (get_http_client settings w) as [client w1] eqn:Hget.
      rewrite (IH w1).
      pose proof (get_http_client_again w) as Hagain.
      rewrite Hget in Hagain. simpl in Hagain. rewrite Hagain.
      reflexivity.
  - unfold get_http_client. now destruct (_http_client w).
Qed.

End LifecycleFacts.

(** ** Malformed payloads *)


Section RecoveryFacts.
Context {py : PyLib}.


End RecoveryFacts.



(** ** Failures while the body is read *)

Section WireFacts.
Context {py : PyLib}.
Variable settings : Settings.

Lemma handle_backend_response_http_only (response : Response) (flag : bool)
      (e : httpx_exc) :
  _handle_backend_response response flag <> Raises (Uncaught e).
Proof.
  unfold _handle_backend_response.
  destruct flag;
    [destruct (negb (Z.eqb (resp_status_code response) 200))
    |destruct (Z.leb 400 (resp_status_code response))];
    discriminate.
Qed.

(** On a wire without breaks the forwarders on the wire are the
    forwarders above, run against the responses of the wire. *)
Lemma forwarders_on_sound_wire (wire : Wire) :
  (forall req x, wire req = inr x -> exch_break x = None) ->
  (forall r log,
      chat_forwarder_on_wire settings wire r log =
      forward_chat_completion_request_to_vllm settings (backend_of_wire wire) r log) /\
  (forall request log,
      generic_forwarder_on_wire settings wire request log =
      forward_generic_request_to_vllm settings (backend_of_wire wire) request log).
Proof.
  intros Hsound.
  assert (Hgen : forall req flag log,
             send_and_handle wire req flag log =
             try_send (backend_of_wire wire) req
               (fun resp => _handle_backend_response resp flag) log).
  { intros req flag log.
    unfold send_and_handle, try_send, send, wire_send, backend_of_wire.
    destruct (wire req) as [e|x] eqn:Hw; [reflexivity|].
    pose proof (Hsound req x Hw) as Hb.
    destruct (out_stream req); rewrite ?Hb; unfold handle_exchange;
      now rewrite Hb. }
  split; intros; apply Hgen.
Qed.

(** The body read outside the [try]: when [send] has returned with
    [stream=True] and the body breaks off where
    [_handle_backend_response] reads it, the exception leaves the
    forwarder as it is, whatever its class. *)
Lemma break_after_streamed_send (wire : Wire) (req : OutboundRequest)
      (flag : bool) (x : Exchange) (e : httpx_exc) :
  wire req = inr x ->
  out_stream req = true ->
  exch_break x = Some e ->
  reads_body (exch_response x) flag = true ->
  send_and_handle wire req flag [] = (Raises (Uncaught e), [req]).
Proof.
  intros Hw Hs Hb Hr. unfold send_and_handle, wire_send, handle_exchange.
  now rewrite Hw, Hs, Hb, Hr.
Qed.

End WireFacts.

(** C8.  Backend failure taxonomy, on a backend that answers with status
    200 and then sends no body until the read times out.  On the generic
    path the request goes out with [stream=True] and the body is read in
    [_handle_backend_response], outside the [try]: the [ReadTimeout]
    leaves the forwarder as it is and the route makes a 500 of it.  On
    the buffered chat path [send] reads the body inside the [try], and
    the same timeout becomes the 504.  The same holds of a [ReadError]
    and the 503.  One request is sent in each case. *)
Example read_timeout_on_generic_path_is_not_504 :
  let request := {| req_method := "GET";
                    req_url_path := "/v1/models";
                    req_url_query := EmptyString;
                    req_headers := [("host", "gateway");
                                    ("accept", "application/json")];
                    req_body := [] |} in
  let r := {| Schemas.model := "qwen3";
              Schemas.messages := [{| Schemas.role := "user"; Schemas.content := "hi" |}];
              Schemas.temperature := None;
              Schemas.top_p := None;
              Schemas.top_k := None;
              Schemas.n := None;
              Schemas.stream := None;
              Schemas.stop := None;
              Schemas.max_tokens := None;
              Schemas.presence_penalty := None;
              Schemas.frequency_penalty := None;
              Schemas.logit_bias := None;
              Schemas.user := None;
              Schemas.model_extra := [] |} in
  let stalls (e : httpx_exc) : Wire :=
    fun _ => inr {| exch_response :=
                      {| resp_status_code := 200;
                         resp_headers := [("content-type", "application/json")];
                         resp_chunks := [] |};
                    exch_break := Some e |} in
  @generic_forwarder_on_wire PyJson.lib default_settings (stalls ReadTimeout) request [] =
    (Raises (Uncaught ReadTimeout), [generic_outbound default_settings request]) /\
  (forall str_exc : httpx_exc -> string,
      @generic_proxy PyJson.lib default_settings str_exc (stalls ReadTimeout) request [] =
      (Raises (HTTPException 500
                 ("Internal server error during generic proxy: "
                    ++ str_exc ReadTimeout)%string),
       [generic_outbound default_settings request])) /\
  @chat_forwarder_on_wire PyJson.lib default_settings (stalls ReadTimeout) r [] =
    (Raises (HTTPException 504
               "Gateway timeout: backend LLM did not respond in time."),
     [chat_outbound default_settings r]) /\
  @generic_forwarder_on_wire PyJson.lib default_settings (stalls ReadError) request [] =
    (Raises (Uncaught ReadError), [generic_outbound default_settings request]) /\
  @chat_forwarder_on_wire PyJson.lib default_settings (stalls ReadError) r [] =
    (Raises (HTTPException 503 "Backend LLM service unreachable."),
     [chat_outbound default_settings r]).
Proof.
  intros request r stalls.
  split; [reflexivity|]. split; [intros str_exc; reflexivity|].
  split; [reflexivity|]. split; reflexivity.
Qed.

(** ** The routes *)

Section RouteFacts.
Context {py : PyLib}.
Variable settings : Settings.
Variable str_exc : httpx_exc -> string.
Variable wire : Wire.

(** X16.  What leaves a route.  The outcome of each route is decided by
    what the backend does for the one request.  An exception raised by
    [build_request] or [send] gives 504 for a timeout, 503 for another
    request error and 500 otherwise; so does, on the buffered chat path,
    a body that breaks off, since [send] reads it.  After a streamed
    [send] (always on the generic path) a body that breaks off where the
    normaliser reads it gives the route's 500, also for a timeout; where
    the normaliser does not read it (streaming, status 200) and where the
    body arrives in full, the outcome is the normaliser's.  No route lets
    an exception other than an [HTTPException] out. *)
Theorem routes_outcome :
  (forall r : Schemas.ChatCompletionRequest,
      fst (chat_completions_custom settings str_exc wire r []) =
      let req := chat_outbound settings r in
      match wire req with
      | inl e => Raises (route_failure str_exc "Internal server error: " e)
      | inr x =>
          match exch_break x with
          | Some e =>
              if out_stream req then
                if reads_body (exch_response x) true then
                  Raises (HTTPException 500
                            ("Internal server error: " ++ str_exc e)%string)
                else _handle_backend_response (exch_response x) true
              else Raises (route_failure str_exc "Internal server error: " e)
          | None => _handle_backend_response (exch_response x) (out_stream req)
          end
      end) /\
  (forall request : Request,
      fst (generic_proxy settings str_exc wire request []) =
      match wire (generic_outbound settings request) with
      | inl e =>
          Raises (route_failure str_exc
                    "Internal server error during generic proxy: " e)
      | inr x =>
          match exch_break x with
          | Some e =>
              if reads_body (exch_response x) (expect_stream request) then
                Raises (HTTPException 500
                          ("Internal server error during generic proxy: "
                             ++ str_exc e)%string)
              else _handle_backend_response (exch_response x) (expect_stream request)
          | None => _handle_backend_response (exch_response x) (expect_stream request)
          end
      end) /\
  (forall (r : Schemas.ChatCompletionRequest) (request : Request) (e : httpx_exc),
      fst (chat_completions_custom settings str_exc wire r []) <> Raises (Uncaught e) /\
      fst (generic_proxy settings str_exc wire request []) <> Raises (Uncaught e)).
Proof.
  assert (Hfail : forall prefix e,
             match backend_failure e with
             | Uncaught e' => HTTPException 500 (prefix ++ str_exc e')%string
             | err => err
             end = route_failure str_exc prefix e).
  { intros prefix e. unfold backend_failure, route_failure.
    destruct (is_TimeoutException e); [reflexivity|].
    destruct (is_RequestError e); reflexivity. }
  assert (Hhandled : forall prefix response flag,
             match _handle_backend_response response flag with
             | Raises (Uncaught e') =>
                 Raises (HTTPException 500 (prefix ++ str_exc e')%string)
             | out => out
             end = _handle_backend_response response flag).
  { intros prefix response flag.
    destruct (_handle_backend_response response flag) as [sr|[s dtl|e']] eqn:Hh;
      try reflexivity.
    now elim (@handle_backend_response_http_only py response flag e'). }
  assert (Hroute : forall prefix req flag,
             fst (reraise_as_500 str_exc prefix
                    (send_and_handle wire req flag) []) =
             match wire_send wire req with
             | inl e => Raises (route_failure str_exc prefix e)
             | inr x =>
                 match exch_break x with
                 | Some e =>
                     if reads_body (exch_response x) flag then
                       Raises (HTTPException 500 (prefix ++ str_exc e)%string)
                     else _handle_backend_response (exch_response x) flag
                 | None => _handle_backend_response (exch_response x) flag
                 end
             end).
  { intros prefix req flag. unfold reraise_as_500, send_and_handle.
    destruct (wire_send wire req) as [e|x].
    - rewrite <- (Hfail prefix e). now destruct (backend_failure e).
    - unfold handle_exchange.
      destruct (exch_break x) as [e|].
      + destruct (reads_body (exch_response x) flag); [reflexivity|].
        rewrite <- (Hhandled prefix (exch_response x) flag) at 2.
        now destruct (_handle_backend_response (exch_response x) flag) as [?|[?|?]].
      + rewrite <- (Hhandled prefix (exch_response x) flag) at 2.
        now destruct (_handle_backend_response (exch_response x) flag) as [?|[?|?]]. }
  assert (Hchat : forall r : Schemas.ChatCompletionRequest,
      fst (chat_completions_custom settings str_exc wire r []) =
      let req := chat_outbound settings r in
      match wire req with
      | inl e => Raises (route_failure str_exc "Internal server error: " e)
      | inr x =>
          match exch_break x with
          | Some e =>
              if out_stream req then
                if reads_body (exch_response x) true then
                  Raises (HTTPException 500
                            ("Internal server error: " ++ str_exc e)%string)
                else _handle_backend_response (exch_response x) true
              else Raises (route_failure str_exc "Internal server error: " e)
          | None => _handle_backend_response (exch_response x) (out_stream req)
          end
      end).
  { intros r. unfold chat_completions_custom, chat_forwarder_on_wire.
    cbv zeta. rewrite Hroute. unfold wire_send.
    destruct (wire (chat_outbound settings r)) as [e|x]; [reflexivity|].
    destruct (out_stream (chat_outbound settings r)).
    - reflexivity.
    - destruct (exch_break x) as [e|] eqn:Hb; [reflexivity|].
      now rewrite Hb. }
  assert (Hgeneric : forall request : Request,
      fst (generic_proxy settings str_exc wire request []) =
      match wire (generic_outbound settings request) with
      | inl e =>
          Raises (route_failure str_exc
                    "Internal server error during generic proxy: " e)
      | inr x =>
          match exch_break x with
          | Some e =>
              if reads_body (exch_response x) (expect_stream request) then
                Raises (HTTPException 500
                          ("Internal server error during generic proxy: "
                             ++ str_exc e)%string)
              else _handle_backend_response (exch_response x) (expect_stream request)
          | None => _handle_backend_response (exch_response x) (expect_stream request)
          end
      end).
  { intros request. unfold generic_proxy, generic_forwarder_on_wire.
    rewrite Hroute. unfold wire_send.
    now destruct (wire (generic_outbound settings request)). }
  split; [exact Hchat|]. split; [exact Hgeneric|].
  assert (Hhttp : forall prefix e e',
             route_failure str_exc prefix e <> Uncaught e').
  { intros prefix e e'. unfold route_failure.
    destruct (is_TimeoutException e); [discriminate|].
    destruct (is_RequestError e); discriminate. }
  intros r request e. rewrite Hchat, Hgeneric. cbv zeta. split.
  - destruct (wire (chat_outbound settings r)) as [e'|x].
    + intros H. injection H as H. now apply Hhttp in H.
    + destruct (exch_break x) as [e'|];
        [destruct (out_stream (chat_outbound settings r));
         [destruct (reads_body (exch_response x) true)|]|];
        try discriminate;
        try apply handle_backend_response_http_only.
      intros H. injection H as H. now apply Hhttp in H.
  - destruct (wire (generic_outbound settings request)) as [e'|x].
    + intros H. injection H as H. now apply Hhttp in H.
    + destruct (exch_break x) as [e'|];
        [destruct (reads_body (exch_response x) (expect_stream request))|];
        try discriminate;
        apply handle_backend_response_http_only.
Qed.

End RouteFacts.
